(** * MutexValidator: a reference-counted handle on a shared recursive mutex

    Shallow embedding of [MutexValidator.cpp].  The three separately
    allocated objects a handle points at (the mutex, the counter and the
    validity flag) live in three typed stores; the handles themselves are
    objects with an address, because [operator=] compares [this] with
    [&other].  Every member function is a computation in a small
    state-and-outcome monad and logs the effects it performs, in program
    order, so that claims about sequencing can be stated on the log. *)

From stdpp Require Import gmap strings list fin_maps.
From Stdlib Require Import ZArith Lia.

(** ** Data model *)

(** Addresses of heap cells and of handle objects, and thread identifiers. *)
Abbreviation loc := positive (only parsing).
Abbreviation obj := positive (only parsing).
Abbreviation tid := nat (only parsing).

(** [std::size_t] is taken to be 64 bits wide; [++] and [--] wrap around. *)
Definition SIZE_BITS : Z := 64.
Definition SIZE_MOD : Z := 2 ^ SIZE_BITS.
Definition wrap (z : Z) : Z := z mod SIZE_MOD.

(** The private fields of [class MutexValidator]. *)
Record MutexValidator := mkMV {
  Mtx : loc;
  Counter : loc;
  IsValid : loc;
  IsOriginal : bool
}.

(** Modelled from the spec: [std::recursive_mutex] belongs to the C++
    standard library and its code is not part of the repository.  The spec
    describes it as a re-entrant mutual-exclusion primitive that the same
    thread may acquire several times; a mutex is therefore either free or
    held by one thread a positive number of times.  [acquire] answers [None]
    when the caller would have to wait, [release] answers [None] when the
    caller does not own the mutex. *)
Inductive recursive_mutex :=
| Free
| Held (owner : tid) (depth : positive).

Definition acquire (t : tid) (m : recursive_mutex) : option recursive_mutex :=
  match m with
  | Free => Some (Held t 1)
  | Held t' k => if decide (t' = t) then Some (Held t (Pos.succ k)) else None
  end.

Definition release (t : tid) (m : recursive_mutex) : option recursive_mutex :=
  match m with
  | Free => None
  | Held t' k =>
      if decide (t' = t)
      then Some (if decide (k = 1%positive) then Free else Held t (Pos.pred k))
      else None
  end.

(** Effects, logged in the order the code performs them. *)
Inductive event :=
| ENewMtx (p : loc)
| ENewCounter (p : loc) (v : Z)
| ENewFlag (p : loc) (b : bool)
| ELock (t : tid) (p : loc)
| ETryLock (t : tid) (p : loc) (r : bool)
| EUnlock (t : tid) (p : loc)
| EStoreFlag (p : loc) (b : bool)
| EDec (p : loc) (v : Z)
| EInc (p : loc) (v : Z)
| EDeleteMtx (p : loc)
| EDeleteCounter (p : loc)
| EDeleteFlag (p : loc).

#[global] Instance event_eq_dec : EqDecision event.
Proof. solve_decision. Defined.

Record state := mkState {
  handles : gmap positive MutexValidator;
  mtxs : gmap positive recursive_mutex;
  cnts : gmap positive Z;
  flgs : gmap positive bool;
  next : loc;
  trace : list event;
  stdout : string
}.

Definition init : state :=
  mkState ∅ ∅ ∅ ∅ 1%positive [] "".

Definition set_handles (f : gmap positive MutexValidator → gmap positive MutexValidator)
    (s : state) : state :=
  mkState (f (handles s)) (mtxs s) (cnts s) (flgs s) (next s) (trace s) (stdout s).
Definition set_mtxs (f : gmap positive recursive_mutex → gmap positive recursive_mutex)
    (s : state) : state :=
  mkState (handles s) (f (mtxs s)) (cnts s) (flgs s) (next s) (trace s) (stdout s).
Definition set_cnts (f : gmap positive Z → gmap positive Z) (s : state) : state :=
  mkState (handles s) (mtxs s) (f (cnts s)) (flgs s) (next s) (trace s) (stdout s).
Definition set_flgs (f : gmap positive bool → gmap positive bool) (s : state) : state :=
  mkState (handles s) (mtxs s) (cnts s) (f (flgs s)) (next s) (trace s) (stdout s).
Definition bump (s : state) : state :=
  mkState (handles s) (mtxs s) (cnts s) (flgs s) (Pos.succ (next s)) (trace s) (stdout s).
Definition log (e : event) (s : state) : state :=
  mkState (handles s) (mtxs s) (cnts s) (flgs s) (next s) (trace s ++ [e]) (stdout s).
Definition write (x : string) (s : state) : state :=
  mkState (handles s) (mtxs s) (cnts s) (flgs s) (next s) (trace s) (stdout s +:+ x).

(** ** The monad

    A computation either finishes with a value and a new state, has to wait
    for a mutex held by another thread ([Blocks]), or has undefined
    behaviour that leaves no state to continue from ([Undefined]): reading
    or writing a deleted counter or flag, locking a deleted mutex, unlocking
    a mutex the thread does not own, using an object that is not alive. *)
Inductive result (A : Type) :=
| Ok (a : A)
| Blocks
| Undefined.
Arguments Ok {A} a.
Arguments Blocks {A}.
Arguments Undefined {A}.

Definition M (A : Type) : Type := state → result (A * state).

#[global] Instance M_ret : MRet M := λ A a s, Ok (a, s).
#[global] Instance M_bind : MBind M := λ A B f m s,
  match m s with
  | Ok (a, s') => f a s'
  | Blocks => Blocks
  | Undefined => Undefined
  end.

(** ** Heap primitives *)

(** [new std::recursive_mutex], [new std::size_t(v)], [new bool(b)]:
    the allocator hands out an address that was never used before. *)
Definition new_mtx : M loc := λ s,
  let p := next s in
  Ok (p, log (ENewMtx p) (bump (set_mtxs <[p := Free]> s))).

Definition new_counter (v : Z) : M loc := λ s,
  let p := next s in
  Ok (p, log (ENewCounter p v) (bump (set_cnts <[p := v]> s))).

Definition new_flag (b : bool) : M loc := λ s,
  let p := next s in
  Ok (p, log (ENewFlag p b) (bump (set_flgs <[p := b]> s))).

(** [p->lock()]. *)
Definition mtx_lock (t : tid) (p : loc) : M unit := λ s,
  match mtxs s !! p with
  | None => Undefined
  | Some m =>
      match acquire t m with
      | Some m' => Ok (tt, log (ELock t p) (set_mtxs <[p := m']> s))
      | None => Blocks
      end
  end.

(** [p->try_lock()]. *)
Definition mtx_try_lock (t : tid) (p : loc) : M bool := λ s,
  match mtxs s !! p with
  | None => Undefined
  | Some m =>
      match acquire t m with
      | Some m' => Ok (true, log (ETryLock t p true) (set_mtxs <[p := m']> s))
      | None => Ok (false, log (ETryLock t p false) s)
      end
  end.

(** [p->unlock()].  The call returns nothing and no later statement reads
    the mutex it was applied to, so an unlock of a mutex that has already
    been deleted is logged and execution goes on; the log then shows the
    [EUnlock] after the [EDeleteMtx] of the same address. *)
Definition mtx_unlock (t : tid) (p : loc) : M unit := λ s,
  match mtxs s !! p with
  | None => Ok (tt, log (EUnlock t p) s)
  | Some m =>
      match release t m with
      | Some m' => Ok (tt, log (EUnlock t p) (set_mtxs <[p := m']> s))
      | None => Undefined
      end
  end.

(** [--*p] and [++*p] on a [std::size_t]; the new value is returned. *)
Definition dec (p : loc) : M Z := λ s,
  match cnts s !! p with
  | None => Undefined
  | Some v =>
      let v' := wrap (v - 1) in
      Ok (v', log (EDec p v') (set_cnts <[p := v']> s))
  end.

Definition inc (p : loc) : M Z := λ s,
  match cnts s !! p with
  | None => Undefined
  | Some v =>
      let v' := wrap (v + 1) in
      Ok (v', log (EInc p v') (set_cnts <[p := v']> s))
  end.

(** [*p = b] and [*p] on a [bool]. *)
Definition store_flag (p : loc) (b : bool) : M unit := λ s,
  match flgs s !! p with
  | None => Undefined
  | Some _ => Ok (tt, log (EStoreFlag p b) (set_flgs <[p := b]> s))
  end.

Definition load_flag (p : loc) : M bool := λ s,
  match flgs s !! p with
  | None => Undefined
  | Some b => Ok (b, s)
  end.

(** [delete p] for each of the three kinds of cell.  The cell leaves its
    store; a second [delete] of the same address is undefined. *)
Definition delete_mtx (p : loc) : M unit := λ s,
  match mtxs s !! p with
  | None => Undefined
  | Some _ => Ok (tt, log (EDeleteMtx p) (set_mtxs (delete p) s))
  end.

Definition delete_counter (p : loc) : M unit := λ s,
  match cnts s !! p with
  | None => Undefined
  | Some _ => Ok (tt, log (EDeleteCounter p) (set_cnts (delete p) s))
  end.

Definition delete_flag (p : loc) : M unit := λ s,
  match flgs s !! p with
  | None => Undefined
  | Some _ => Ok (tt, log (EDeleteFlag p) (set_flgs (delete p) s))
  end.

(** Access to the handle objects themselves. *)
Definition get (this : obj) : M MutexValidator := λ s,
  match handles s !! this with
  | None => Undefined
  | Some h => Ok (h, s)
  end.

Definition put (this : obj) (h : MutexValidator) : M unit := λ s,
  Ok (tt, set_handles <[this := h]> s).

Definition fresh_obj (this : obj) : M unit := λ s,
  match handles s !! this with
  | None => Ok (tt, s)
  | Some _ => Undefined
  end.

Definition end_of_life (this : obj) : M unit := λ s,
  Ok (tt, set_handles (delete this) s).

(** [std::cout << b << std::endl] for a [bool] without [boolalpha]. *)
Definition endl : string := String (Ascii.ascii_of_nat 10) EmptyString.
Definition print_bool (b : bool) : M unit := λ s,
  Ok (tt, write ((if b then "1" else "0") +:+ endl) s).

(** ** The member functions of [MutexValidator] *)

(** [MutexValidator()] constructing the object at address [this]. *)
Definition ctor_default (this : obj) : M unit :=
  fresh_obj this;;
  m ← new_mtx;
  c ← new_counter 1;
  v ← new_flag true;
  put this (mkMV m c v true).

(** [MutexValidator(const MutexValidator& other)] run by thread [t].  The
    three pointer assignments and [IsOriginal = false] are one update of the
    object at [this]; nothing reads that object in between, and [++*Counter]
    goes through the pointer just copied from [other]. *)
Definition ctor_copy (t : tid) (this other : obj) : M unit :=
  fresh_obj this;;
  o ← get other;
  mtx_lock t (Mtx o);;
  inc (Counter o);;
  put this (mkMV (Mtx o) (Counter o) (IsValid o) false);;
  mtx_unlock t (Mtx o).

(** [operator=(const MutexValidator& other)] run by thread [t].  The test
    [this != &other] compares the addresses of the two handle objects.  The
    first half contains no test of [IsOriginal] and no store to [*IsValid]. *)
Definition assign (t : tid) (this other : obj) : M unit :=
  if decide (this ≠ other) then
    h ← get this;
    mtx_lock t (Mtx h);;
    n ← dec (Counter h);
    (if decide (n = 0%Z) then
       delete_mtx (Mtx h);;
       delete_counter (Counter h);;
       delete_flag (IsValid h)
     else mret tt);;
    mtx_unlock t (Mtx h);;
    o ← get other;
    mtx_lock t (Mtx o);;
    inc (Counter o);;
    put this (mkMV (Mtx o) (Counter o) (IsValid o) false);;
    mtx_unlock t (Mtx o)
  else mret tt.

Definition GetIsValid (this : obj) : M bool :=
  h ← get this;
  load_flag (IsValid h).

Definition Lock (t : tid) (this : obj) : M unit :=
  h ← get this;
  mtx_lock t (Mtx h).

Definition TryLock (t : tid) (this : obj) : M bool :=
  h ← get this;
  mtx_try_lock t (Mtx h).

Definition Unlock (t : tid) (this : obj) : M unit :=
  h ← get this;
  mtx_unlock t (Mtx h).

(** [~MutexValidator()] run by thread [t]; the object's life ends with it. *)
Definition dtor (t : tid) (this : obj) : M unit :=
  h ← get this;
  mtx_lock t (Mtx h);;
  (if IsOriginal h then store_flag (IsValid h) false else mret tt);;
  n ← dec (Counter h);
  (if decide (n = 0%Z) then
     delete_mtx (Mtx h);;
     delete_counter (Counter h);;
     delete_flag (IsValid h)
   else mret tt);;
  mtx_unlock t (Mtx h);;
  end_of_life this.

(** [main], run by thread [0].  [mwvp] points at the object at address 1,
    [mwv] is the object at address 2; [mwv] is destroyed when [main] is
    left, and leaving [main] without a [return] returns 0. *)
Definition main : M Z :=
  let mwvp : obj := 1%positive in
  let mwv : obj := 2%positive in
  ctor_default mwvp;;
  ctor_copy 0 mwv mwvp;;
  Lock 0 mwv;;
  b ← GetIsValid mwv;
  print_bool b;;
  Unlock 0 mwv;;
  dtor 0 mwvp;;
  Lock 0 mwv;;
  b ← GetIsValid mwv;
  print_bool b;;
  Unlock 0 mwv;;
  dtor 0 mwv;;
  mret 0%Z.

Definition exit_code (r : result (Z * state)) : option Z :=
  match r with Ok (z, _) => Some z | _ => None end.
Definition output (r : result (Z * state)) : option string :=
  match r with Ok (_, s) => Some (stdout s) | _ => None end.

(** ** Sequences of handle operations *)

Inductive op :=
| ONew (a : obj)
| OCopy (t : tid) (a other : obj)
| OAssign (t : tid) (a other : obj)
| ODestroy (t : tid) (a : obj)
| OLock (t : tid) (a : obj)
| OTryLock (t : tid) (a : obj)
| OUnlock (t : tid) (a : obj)
| OGetIsValid (a : obj).

Definition step (o : op) : M unit :=
  match o with
  | ONew a => ctor_default a
  | OCopy t a other => ctor_copy t a other
  | OAssign t a other => assign t a other
  | ODestroy t a => dtor t a
  | OLock t a => Lock t a
  | OTryLock t a => TryLock t a;; mret tt
  | OUnlock t a => Unlock t a
  | OGetIsValid a => GetIsValid a;; mret tt
  end.

Fixpoint run (ops : list op) : M unit :=
  match ops with
  | [] => mret tt
  | o :: rest => step o;; run rest
  end.

(** ** Well-formed states *)

(** Number of live handles whose [Counter] points at [c]. *)
Definition count_refs (c : loc) (hs : gmap positive MutexValidator) : nat :=
  size (filter (λ ah, Counter ah.2 = c) hs).
Definition refCount (c : loc) (s : state) : nat := count_refs c (handles s).

(** A live handle points at three live cells, and the flag of an original
    is still set. *)
Definition linked (s : state) (h : MutexValidator) : Prop :=
  is_Some (mtxs s !! Mtx h) ∧ is_Some (cnts s !! Counter h) ∧
  is_Some (flgs s !! IsValid h) ∧
  (IsOriginal h = true → flgs s !! IsValid h = Some true).

(** The three pointers of two handles agree together or not at all. *)
Definition in_sync (h1 h2 : MutexValidator) : Prop :=
  (Mtx h1 = Mtx h2 ↔ Counter h1 = Counter h2) ∧
  (IsValid h1 = IsValid h2 ↔ Counter h1 = Counter h2).

(** A block has at most one original. *)
Definition one_original (a1 : obj) (h1 : MutexValidator)
    (a2 : obj) (h2 : MutexValidator) : Prop :=
  Counter h1 = Counter h2 → IsOriginal h1 = true → IsOriginal h2 = true → a1 = a2.

(** A live counter holds the number of handles on it, which is not zero. *)
Definition counted (s : state) (c : loc) (v : Z) : Prop :=
  v = Z.of_nat (refCount c s) ∧ (0 < v)%Z.

Definition below {A} (n : loc) (m : gmap positive A) : Prop :=
  map_Forall (λ p _, (p < n)%positive) m.

Definition wf (s : state) : Prop :=
  map_Forall (λ _ h, linked s h) (handles s) ∧
  map_Forall (λ a1 h1,
    map_Forall (λ a2 h2, in_sync h1 h2 ∧ one_original a1 h1 a2 h2) (handles s))
    (handles s) ∧
  map_Forall (counted s) (cnts s) ∧
  below (next s) (mtxs s) ∧ below (next s) (cnts s) ∧ below (next s) (flgs s) ∧
  (Z.of_nat (size (handles s)) < SIZE_MOD)%Z.

#[global] Instance wf_dec s : Decision (wf s).
Proof. unfold wf, linked, in_sync, one_original, counted, below. apply _. Defined.

(** What the log of one destructor call (or of the release half of an
    assignment) looks like, given the handle and the decremented count. *)
Definition free_events (h : MutexValidator) (n : Z) : list event :=
  if decide (n = 0%Z)
  then [EDeleteMtx (Mtx h); EDeleteCounter (Counter h); EDeleteFlag (IsValid h)]
  else [].

Definition dtor_events (t : tid) (h : MutexValidator) (n : Z) : list event :=
  [ELock t (Mtx h)] ++
  (if IsOriginal h then [EStoreFlag (IsValid h) false] else []) ++
  [EDec (Counter h) n] ++ free_events h n ++ [EUnlock t (Mtx h)].

Definition release_events (t : tid) (h : MutexValidator) (n : Z) : list event :=
  [ELock t (Mtx h); EDec (Counter h) n] ++ free_events h n ++ [EUnlock t (Mtx h)].

Definition link_events (t : tid) (o : MutexValidator) (n : Z) : list event :=
  [ELock t (Mtx o); EInc (Counter o) n; EUnlock t (Mtx o)].

(** The handle a copy constructor or an assignment leaves in [this]. *)
Definition copy_of (o : MutexValidator) : MutexValidator :=
  mkMV (Mtx o) (Counter o) (IsValid o) false.

(** ** Auxiliary definitions used in the proofs *)

(** The state between the two halves of an assignment: the old block has
    been released, [this] still holds its old pointers. *)
Definition release_state (t : tid) (h : MutexValidator) (v : Z) (s : state) : state :=
  if decide (wrap (v - 1) = 0%Z) then
    mkState (handles s) (delete (Mtx h) (mtxs s)) (delete (Counter h) (cnts s))
            (delete (IsValid h) (flgs s)) (next s)
            (trace s ++ release_events t h (wrap (v - 1))) (stdout s)
  else
    mkState (handles s) (mtxs s) (<[Counter h := wrap (v - 1)]> (cnts s)) (flgs s)
            (next s) (trace s ++ release_events t h (wrap (v - 1))) (stdout s).

(** The second half of an assignment, which is also the body of the copy
    constructor: link [this] to the block of [other]. *)
Definition link (t : tid) (this other : obj) : M unit :=
  o ← get other;
  mtx_lock t (Mtx o);;
  inc (Counter o);;
  put this (copy_of o);;
  mtx_unlock t (Mtx o).

(** The first half of an assignment: release the block [this] is on. *)
Definition release_half (t : tid) (this : obj) : M unit :=
  h ← get this;
  mtx_lock t (Mtx h);;
  n ← dec (Counter h);
  (if decide (n = 0%Z) then
     delete_mtx (Mtx h);;
     delete_counter (Counter h);;
     delete_flag (IsValid h)
   else mret tt);;
  mtx_unlock t (Mtx h).

(** Only the domain of the mutex store matters to [wf]. *)
Definition same_dom {A} (m1 m2 : gmap positive A) : Prop :=
  ∀ p, is_Some (m1 !! p) ↔ is_Some (m2 !! p).

(** The number of live handles grows by at most one per operation. *)
Definition room (k : nat) (s : state) : Prop :=
  (Z.of_nat (size (handles s) + k) < SIZE_MOD)%Z.

(** ** The life of a flag cell *)

(** What may happen to the cell at address [f] of the flag store in one
    operation [o] started in [s]. *)
Definition flag_rel (o : op) (s : state) (f : loc)
    (before after : option bool) : Prop :=
  match before, after with
  | Some b, Some b' =>
      b' = b ∨
      (b = true ∧ b' = false ∧
       ∃ t a h, o = ODestroy t a ∧ handles s !! a = Some h ∧
                IsOriginal h = true ∧ IsValid h = f)
  | Some _, None => True
  | None, Some b' => b' = true ∧ (next s ≤ f)%positive
  | None, None => True
  end.

(** The values the flag cell at [f] takes, state after state, while [ops]
    run from [s] (the history stops where the run stops). *)
Fixpoint flag_history (f : loc) (ops : list op) (s : state) : list (option bool) :=
  flgs s !! f ::
  match ops with
  | [] => []
  | o :: rest =>
      match step o s with
      | Ok (_, s') => flag_history f rest s'
      | _ => []
      end
  end.

(** Number of places where [l] goes from [Some x] directly to [Some y]. *)
Fixpoint changes (x y : bool) (l : list (option bool)) : nat :=
  match l with
  | [] => 0
  | a :: tl =>
      match tl with
      | b :: _ => if decide (a = Some x ∧ b = Some y) then 1 else 0
      | [] => 0
      end + changes x y tl
  end.

(** Where a flag cell is in its life: not yet allocated, set, cleared,
    deleted. *)
Definition phase (f : loc) (s : state) : nat :=
  match flgs s !! f with
  | Some true => 1
  | Some false => 2
  | None => if decide (f < next s)%positive then 3 else 0
  end.

(** ** Reading the log *)

Definition is_delete (e : event) : bool :=
  match e with
  | EDeleteMtx _ | EDeleteCounter _ | EDeleteFlag _ => true
  | _ => false
  end.

(** The values the counter at [c] is decremented to, in order. *)
Definition decrements (c : loc) (evs : list event) : list Z :=
  omap (λ e, match e with
             | EDec p v => if decide (p = c) then Some v else None
             | _ => None
             end) evs.

(** [n-1, n-2, ..., 0]. *)
Fixpoint countdown (n : nat) : list Z :=
  match n with
  | 0 => []
  | S k => Z.of_nat k :: countdown k
  end.

(** ** Example states *)

Definition state_after (ops : list op) : state :=
  match run ops init with
  | Ok (_, s) => s
  | _ => init
  end.

(** An original at address 1 and one copy of it at address 2. *)
Definition two_handles : state := state_after [ONew 1; OCopy 0 2 1].

(** Two blocks: original 1 with copy 2, and original 3. *)
Definition two_blocks : state := state_after [ONew 1; OCopy 0 2 1; ONew 3].

(** An original at address 1 whose mutex thread 1 has locked. *)
Definition held_elsewhere : state := state_after [ONew 1; OLock 1 1].

(** An original at address 1, a copy of it at 2 and a copy of the copy at 3. *)
Definition three_handles : state :=
  state_after [ONew 1; OCopy 0 2 1; OCopy 0 3 2].

(** ** Readiness and ownership *)

(** The thread that runs an operation.  Default construction and
    [GetIsValid] take no lock; thread 0 stands in for them. *)
Definition thread_of (o : op) : tid :=
  match o with
  | ONew _ | OGetIsValid _ => 0
  | OCopy t _ _ | OAssign t _ _ | ODestroy t _
  | OLock t _ | OTryLock t _ | OUnlock t _ => t
  end.

(** What the calling C++ code has to guarantee for an operation: the objects
    it uses are alive, the storage of an object under construction is not
    in use, and a thread only unlocks a mutex it holds. *)
Definition ready (o : op) (s : state) : Prop :=
  match o with
  | ONew a => handles s !! a = None
  | OCopy _ a other => handles s !! a = None ∧ is_Some (handles s !! other)
  | OAssign _ a other => is_Some (handles s !! a) ∧ is_Some (handles s !! other)
  | ODestroy _ a | OLock _ a | OTryLock _ a | OGetIsValid a =>
      is_Some (handles s !! a)
  | OUnlock t a =>
      ∃ h k, handles s !! a = Some h ∧ mtxs s !! Mtx h = Some (Held t k)
  end.

(** Every thread-[t] lock attempt succeeds: no mutex is held by another
    thread. *)
Definition uncontended (t : tid) (s : state) : Prop :=
  ∀ p m, mtxs s !! p = Some m → is_Some (acquire t m).

(** Every cell of the three stores is pointed at by a live handle. *)
Definition owned (s : state) : Prop :=
  (∀ p, is_Some (mtxs s !! p) → ∃ a h, handles s !! a = Some h ∧ Mtx h = p) ∧
  (∀ p, is_Some (cnts s !! p) → ∃ a h, handles s !! a = Some h ∧ Counter h = p) ∧
  (∀ p, is_Some (flgs s !! p) → ∃ a h, handles s !! a = Some h ∧ IsValid h = p).

(** * Proofs *)

(** ** The mutex and the counter arithmetic *)

Lemma release_acquire t m m' : acquire t m = Some m' → release t m' = Some m.
Proof.
  destruct m as [|t' k]; simpl.
  - intros [= <-]. simpl. by rewrite !decide_True.
  - case_decide; [|done]. intros [= <-]. subst t'. simpl.
    rewrite decide_True by done. rewrite decide_False by lia.
    by rewrite Pos.pred_succ.
Qed.

Lemma wrap_small z : (0 ≤ z < SIZE_MOD)%Z → wrap z = z.
Proof. intros. unfold wrap. by apply Z.mod_small. Qed.

Lemma SIZE_MOD_pos : (2 < SIZE_MOD)%Z.
Proof. by vm_compute. Qed.

(** ** Counting the handles on a block *)

Section count.
Implicit Types hs : gmap positive MutexValidator.

Lemma count_refs_insert hs a h c :
  hs !! a = None →
  count_refs c (<[a := h]> hs)
  = if decide (Counter h = c) then S (count_refs c hs) else count_refs c hs.
Proof.
  intros Ha. unfold count_refs. case_decide.
  - rewrite map_filter_insert_True by done.
    apply map_size_insert_None. apply map_lookup_filter_None_2. by left.
  - rewrite map_filter_insert_not' by (simpl; congruence). done.
Qed.

Lemma count_refs_delete hs a h c :
  hs !! a = Some h →
  count_refs c (delete a hs)
  = if decide (Counter h = c) then pred (count_refs c hs) else count_refs c hs.
Proof.
  intros Ha. unfold count_refs. case_decide.
  - rewrite map_filter_delete. apply map_size_delete_Some.
    exists h. by apply map_lookup_filter_Some_2.
  - rewrite map_filter_delete_not; [done|]. intros y. rewrite Ha.
    intros [= <-]. done.
Qed.

Lemma count_refs_pos hs a h : hs !! a = Some h → 0 < count_refs (Counter h) hs.
Proof.
  intros Ha. unfold count_refs.
  assert (size (filter (λ ah : positive * MutexValidator, Counter ah.2 = Counter h) hs) ≠ 0);
    [|lia].
  apply map_size_non_empty_iff. intros He.
  by apply (map_filter_empty_not_lookup _ _ a h) in He.
Qed.

Lemma count_refs_le hs c : count_refs c hs ≤ size hs.
Proof. apply map_subseteq_size, map_filter_subseteq. Qed.

Lemma count_refs_two hs a1 h1 a2 h2 :
  a1 ≠ a2 → hs !! a1 = Some h1 → hs !! a2 = Some h2 →
  Counter h1 = Counter h2 → 2 ≤ count_refs (Counter h1) hs.
Proof.
  intros Hne H1 H2 Hc.
  assert (0 < count_refs (Counter h1) (delete a1 hs)) as Hpos.
  { rewrite Hc. apply (count_refs_pos _ a2). by rewrite lookup_delete_ne. }
  rewrite (count_refs_delete _ _ h1) in Hpos by done.
  rewrite decide_True in Hpos by done. lia.
Qed.

Lemma count_refs_none hs c :
  count_refs c hs = 0 → ∀ a h, hs !! a = Some h → Counter h ≠ c.
Proof.
  intros H0 a h Ha <-. pose proof (count_refs_pos _ _ _ Ha). lia.
Qed.

End count.

(** ** Running the member functions *)

(** Projections are pushed through the state updates one field at a time;
    unfolding the updates themselves would copy the state at every step. *)
Ltac red_state :=
  cbn beta iota zeta delta [handles mtxs cnts flgs next trace stdout
    set_handles set_mtxs set_cnts set_flgs bump log write].

Ltac unfold_ops :=
  unfold ctor_default, ctor_copy, assign, dtor, GetIsValid, Lock, TryLock, Unlock,
    fresh_obj, get, put, end_of_life, new_mtx, new_counter, new_flag,
    mtx_lock, mtx_try_lock, mtx_unlock, dec, inc, store_flag, load_flag,
    delete_mtx, delete_counter, delete_flag, print_bool,
    mbind, M_bind, mret, M_ret; red_state.

Ltac use_eq :=
  match goal with
  | H : ?m !! ?k = _ |- context [?m !! ?k] => rewrite H
  | H : acquire ?t ?m = _ |- context [acquire ?t ?m] => rewrite H
  | H : release ?t ?m = _ |- context [release ?t ?m] => rewrite H
  | H : IsOriginal ?h = _ |- context [IsOriginal ?h] => rewrite H
  | |- context [<[?k := _]> _ !! ?k] => rewrite lookup_insert_eq
  | |- context [delete ?k _ !! ?k] => rewrite lookup_delete_eq
  | H : ?x = ?y |- context [decide (?x = ?y)] => rewrite (decide_True (P := x = y)) by exact H
  | H : ?x ≠ ?y |- context [decide (?x = ?y)] => rewrite (decide_False (P := x = y)) by exact H
  end.

Ltac exec := unfold_ops; repeat (use_eq; red_state).

Ltac tidy_maps :=
  repeat first
    [ rewrite insert_insert_eq
    | rewrite delete_insert_eq
    | rewrite <- app_assoc ];
  cbn [app].

Lemma state_eq (s1 s2 : state) :
  handles s1 = handles s2 → mtxs s1 = mtxs s2 → cnts s1 = cnts s2 →
  flgs s1 = flgs s2 → next s1 = next s2 → trace s1 = trace s2 →
  stdout s1 = stdout s2 → s1 = s2.
Proof. destruct s1, s2; cbn. by intros -> -> -> -> -> -> ->. Qed.

Lemma Ok_eq {A} (a : A) (s1 s2 : state) :
  handles s1 = handles s2 → mtxs s1 = mtxs s2 → cnts s1 = cnts s2 →
  flgs s1 = flgs s2 → next s1 = next s2 → trace s1 = trace s2 →
  stdout s1 = stdout s2 → Ok (a, s1) = Ok (a, s2).
Proof. intros. f_equal. f_equal. by apply state_eq. Qed.

Ltac fields := apply Ok_eq; red_state; tidy_maps.

Lemma ctor_default_ok a s :
  handles s !! a = None →
  ctor_default a s = Ok (tt,
    mkState (<[a := mkMV (next s) (Pos.succ (next s)) (Pos.succ (Pos.succ (next s))) true]>
               (handles s))
            (<[next s := Free]> (mtxs s))
            (<[Pos.succ (next s) := 1%Z]> (cnts s))
            (<[Pos.succ (Pos.succ (next s)) := true]> (flgs s))
            (Pos.succ (Pos.succ (Pos.succ (next s))))
            (trace s ++ [ENewMtx (next s); ENewCounter (Pos.succ (next s)) 1;
                         ENewFlag (Pos.succ (Pos.succ (next s))) true])
            (stdout s)).
Proof.
  intros Ha. exec. by fields.
Qed.

Lemma dtor_ok t a h m m' v b s :
  handles s !! a = Some h →
  mtxs s !! Mtx h = Some m → acquire t m = Some m' →
  cnts s !! Counter h = Some v → flgs s !! IsValid h = Some b →
  dtor t a s = Ok (tt,
    if decide (wrap (v - 1) = 0%Z) then
      mkState (delete a (handles s)) (delete (Mtx h) (mtxs s))
              (delete (Counter h) (cnts s)) (delete (IsValid h) (flgs s)) (next s)
              (trace s ++ dtor_events t h (wrap (v - 1))) (stdout s)
    else
      mkState (delete a (handles s)) (mtxs s)
              (<[Counter h := wrap (v - 1)]> (cnts s))
              (if IsOriginal h then <[IsValid h := false]> (flgs s) else flgs s) (next s)
              (trace s ++ dtor_events t h (wrap (v - 1))) (stdout s)).
Proof.
  intros Ha Hm Hacq Hv Hb. pose proof (release_acquire _ _ _ Hacq) as Hrel.
  unfold dtor_events, free_events.
  destruct (IsOriginal h) eqn:Ho; case_decide as Hz; exec;
    fields; rewrite ?(insert_id (mtxs s)) by done; try rewrite Hz; done.
Qed.

Lemma assign_self t a s : assign t a a s = Ok (tt, s).
Proof. unfold assign. by rewrite decide_False by (intros H; by apply H). Qed.

Lemma ctor_copy_link t a other s :
  handles s !! a = None → ctor_copy t a other s = link t a other s.
Proof. intros Ha. unfold ctor_copy, link, copy_of. by exec. Qed.

Lemma link_ok t a other o m m' v s :
  handles s !! other = Some o →
  mtxs s !! Mtx o = Some m → acquire t m = Some m' →
  cnts s !! Counter o = Some v →
  link t a other s = Ok (tt,
    mkState (<[a := copy_of o]> (handles s)) (mtxs s)
            (<[Counter o := wrap (v + 1)]> (cnts s)) (flgs s) (next s)
            (trace s ++ link_events t o (wrap (v + 1))) (stdout s)).
Proof.
  intros Ho Hm Hacq Hv. pose proof (release_acquire _ _ _ Hacq) as Hrel.
  unfold link, copy_of, link_events. exec.
  fields; rewrite ?(insert_id (mtxs s)) by done; done.
Qed.

Lemma link_inv t a other s r :
  link t a other s = Ok r →
  ∃ o m m' v, handles s !! other = Some o ∧ mtxs s !! Mtx o = Some m ∧
    acquire t m = Some m' ∧ cnts s !! Counter o = Some v.
Proof.
  unfold link. unfold_ops.
  destruct (handles s !! other) as [o|] eqn:Ho; [simpl|done].
  destruct (mtxs s !! Mtx o) as [m|] eqn:Hm; [simpl|done].
  destruct (acquire t m) as [m'|] eqn:Hacq; [simpl|done].
  destruct (cnts s !! Counter o) as [v|] eqn:Hv; [simpl|done].
  intros _. by exists o, m, m', v.
Qed.

Lemma assign_halves t a other s :
  a ≠ other → assign t a other s = (release_half t a;; link t a other) s.
Proof.
  intros Hne. unfold assign, release_half, link, copy_of.
  rewrite decide_True by done. unfold mbind, M_bind.
  destruct (get a s) as [[h s1]| |]; [|done..].
  destruct (mtx_lock t (Mtx h) s1) as [[[] s2]| |]; [|done..].
  destruct (dec (Counter h) s2) as [[n s3]| |]; [|done..].
  match goal with |- context [match ?x s3 with _ => _ end] =>
    destruct (x s3) as [[[] s4]| |]; [|done..] end.
  destruct (mtx_unlock t (Mtx h) s4) as [[[] s5]| |]; done.
Qed.

Lemma release_half_ok t a h m m' v b s :
  handles s !! a = Some h →
  mtxs s !! Mtx h = Some m → acquire t m = Some m' →
  cnts s !! Counter h = Some v → flgs s !! IsValid h = Some b →
  release_half t a s = Ok (tt, release_state t h v s).
Proof.
  intros Ha Hm Hacq Hv Hb.
  pose proof (release_acquire _ _ _ Hacq) as Hrel.
  unfold release_state, release_events, free_events, release_half.
  case_decide as Hz; exec.
  - rewrite Hz. by fields.
  - fields; rewrite ?(insert_id (mtxs s)) by done; done.
Qed.

Lemma assign_split t a other h m m' v b s :
  a ≠ other →
  handles s !! a = Some h →
  mtxs s !! Mtx h = Some m → acquire t m = Some m' →
  cnts s !! Counter h = Some v → flgs s !! IsValid h = Some b →
  assign t a other s = link t a other (release_state t h v s).
Proof.
  intros Hne Ha Hm Hacq Hv Hb. rewrite assign_halves by done.
  unfold mbind at 1, M_bind at 1.
  by rewrite (release_half_ok _ _ _ _ _ _ _ _ Ha Hm Hacq Hv Hb).
Qed.

Lemma assign_inv t a other s r :
  assign t a other s = Ok r → a ≠ other →
  ∃ h m m' v, handles s !! a = Some h ∧ mtxs s !! Mtx h = Some m ∧
    acquire t m = Some m' ∧ cnts s !! Counter h = Some v.
Proof.
  intros H Hne. revert H. unfold assign. rewrite decide_True by done. unfold_ops.
  destruct (handles s !! a) as [h|] eqn:Ha; [simpl|done].
  destruct (mtxs s !! Mtx h) as [m|] eqn:Hm; [simpl|done].
  destruct (acquire t m) as [m'|] eqn:Hacq; [simpl|done].
  destruct (cnts s !! Counter h) as [v|] eqn:Hv; [simpl|done].
  intros _. by exists h, m, m', v.
Qed.

Lemma dtor_inv t a s r :
  dtor t a s = Ok r →
  ∃ h m m' v, handles s !! a = Some h ∧ mtxs s !! Mtx h = Some m ∧
    acquire t m = Some m' ∧ cnts s !! Counter h = Some v.
Proof.
  unfold_ops.
  destruct (handles s !! a) as [h|] eqn:Ha; [simpl|done].
  destruct (mtxs s !! Mtx h) as [m|] eqn:Hm; [simpl|done].
  destruct (acquire t m) as [m'|] eqn:Hacq; [simpl|done].
  destruct (IsOriginal h); simpl.
  - destruct (flgs s !! IsValid h); [simpl|done].
    destruct (cnts s !! Counter h) as [v|] eqn:Hv; [simpl|done].
    intros _. by exists h, m, m', v.
  - destruct (cnts s !! Counter h) as [v|] eqn:Hv; [simpl|done].
    intros _. by exists h, m, m', v.
Qed.

Lemma GetIsValid_ok a h b s :
  handles s !! a = Some h → flgs s !! IsValid h = Some b →
  GetIsValid a s = Ok (b, s).
Proof. intros. by exec. Qed.

Lemma Lock_ok t a h m m' s :
  handles s !! a = Some h → mtxs s !! Mtx h = Some m → acquire t m = Some m' →
  Lock t a s = Ok (tt, log (ELock t (Mtx h)) (set_mtxs <[Mtx h := m']> s)).
Proof. intros. by exec. Qed.

Lemma Unlock_ok t a h m m' s :
  handles s !! a = Some h → mtxs s !! Mtx h = Some m → release t m = Some m' →
  Unlock t a s = Ok (tt, log (EUnlock t (Mtx h)) (set_mtxs <[Mtx h := m']> s)).
Proof. intros. by exec. Qed.

Lemma TryLock_eq t a h m s :
  handles s !! a = Some h → mtxs s !! Mtx h = Some m →
  TryLock t a s =
    match acquire t m with
    | Some m' => Ok (true, log (ETryLock t (Mtx h) true) (set_mtxs <[Mtx h := m']> s))
    | None => Ok (false, log (ETryLock t (Mtx h) false) s)
    end.
Proof. intros. by exec. Qed.

(** ** Consequences of well-formedness *)

Section wf_facts.
Context (s : state) (Hwf : wf s).

Lemma wf_linked a h : handles s !! a = Some h → linked s h.
Proof. intros Ha. destruct Hwf as (H & _). exact (H a h Ha). Qed.

Lemma wf_in_sync a1 h1 a2 h2 :
  handles s !! a1 = Some h1 → handles s !! a2 = Some h2 → in_sync h1 h2.
Proof.
  intros H1 H2. destruct Hwf as (_ & H & _). exact (proj1 (H a1 h1 H1 a2 h2 H2)).
Qed.

Lemma wf_one_original a1 h1 a2 h2 :
  handles s !! a1 = Some h1 → handles s !! a2 = Some h2 →
  Counter h1 = Counter h2 → IsOriginal h1 = true → IsOriginal h2 = true → a1 = a2.
Proof.
  intros H1 H2. destruct Hwf as (_ & H & _). exact (proj2 (H a1 h1 H1 a2 h2 H2)).
Qed.

Lemma wf_counted c v :
  cnts s !! c = Some v → v = Z.of_nat (refCount c s) ∧ (0 < v)%Z.
Proof. intros Hc. destruct Hwf as (_ & _ & H & _). exact (H c v Hc). Qed.

Lemma wf_size : (Z.of_nat (size (handles s)) < SIZE_MOD)%Z.
Proof. apply Hwf. Qed.

Lemma wf_refCount_bound c : (Z.of_nat (refCount c s) < SIZE_MOD)%Z.
Proof. pose proof (count_refs_le (handles s) c). pose proof wf_size. unfold refCount. lia. Qed.

Lemma wf_count a h :
  handles s !! a = Some h →
  cnts s !! Counter h = Some (Z.of_nat (refCount (Counter h) s)).
Proof.
  intros Ha. destruct (wf_linked a h Ha) as (_ & [v Hv] & _).
  rewrite Hv. f_equal. by apply wf_counted.
Qed.

Lemma wf_below_mtx p : is_Some (mtxs s !! p) → (p < next s)%positive.
Proof. intros [m Hm]. destruct Hwf as (_ & _ & _ & H & _). exact (H p m Hm). Qed.

Lemma wf_below_cnt p : is_Some (cnts s !! p) → (p < next s)%positive.
Proof. intros [m Hm]. destruct Hwf as (_ & _ & _ & _ & H & _). exact (H p m Hm). Qed.

Lemma wf_below_flg p : is_Some (flgs s !! p) → (p < next s)%positive.
Proof. intros [m Hm]. destruct Hwf as (_ & _ & _ & _ & _ & H & _). exact (H p m Hm). Qed.

End wf_facts.

Lemma count_refs_zero (hs : gmap positive MutexValidator) c :
  (∀ a h, hs !! a = Some h → Counter h ≠ c) → count_refs c hs = 0.
Proof.
  intros H. unfold count_refs. apply map_size_empty_iff, map_empty_filter.
  intros a h Ha. simpl. by apply (H a).
Qed.

Lemma wf_init : wf init.
Proof. apply (bool_decide_unpack (wf init)). by vm_compute. Qed.

(** ** The four ways a state changes, and why each keeps it well-formed *)

Lemma same_dom_refl {A} (m : gmap positive A) : same_dom m m.
Proof. by intros p. Qed.

Lemma same_dom_insert {A} (m : gmap positive A) p x :
  is_Some (m !! p) → same_dom (<[p := x]> m) m.
Proof.
  intros Hp q. rewrite lookup_insert_is_Some.
  split; [intros [<-|[_ ?]]; done | intros; destruct (decide (p = q)); auto].
Qed.

Lemma wf_intro s :
  (∀ a h, handles s !! a = Some h → linked s h) →
  (∀ a1 h1 a2 h2, handles s !! a1 = Some h1 → handles s !! a2 = Some h2 →
     in_sync h1 h2) →
  (∀ a1 h1 a2 h2, handles s !! a1 = Some h1 → handles s !! a2 = Some h2 →
     one_original a1 h1 a2 h2) →
  (∀ c v, cnts s !! c = Some v → counted s c v) →
  (∀ p, is_Some (mtxs s !! p) → (p < next s)%positive) →
  (∀ p, is_Some (cnts s !! p) → (p < next s)%positive) →
  (∀ p, is_Some (flgs s !! p) → (p < next s)%positive) →
  (Z.of_nat (size (handles s)) < SIZE_MOD)%Z →
  wf s.
Proof.
  intros H1 H2 H3 H4 H5 H6 H7 H8. unfold wf, below, map_Forall.
  split; [exact H1|]. split; [by eauto|]. split; [exact H4|]. eauto 10.
Qed.

Lemma wf_attach s s' a other o v :
  wf s → handles s !! a = None → handles s !! other = Some o →
  cnts s !! Counter o = Some v →
  (Z.of_nat (size (handles s)) + 1 < SIZE_MOD)%Z →
  handles s' = <[a := copy_of o]> (handles s) →
  same_dom (mtxs s') (mtxs s) →
  cnts s' = <[Counter o := (v + 1)%Z]> (cnts s) →
  flgs s' = flgs s → next s' = next s →
  wf s'.
Proof.
  intros Hwf Ha Ho Hv Hsz Eh Em Ec Ef En.
  assert (Hrc : ∀ c, refCount c s' =
            if decide (Counter o = c) then S (refCount c s) else refCount c s).
  { intros c. unfold refCount. rewrite Eh. by rewrite count_refs_insert. }
  assert (Hl : ∀ h, linked s h → linked s' h).
  { intros h (H1 & H2 & H3 & H4). unfold linked. rewrite Ef, Ec.
    repeat split; try done.
    - by apply Em.
    - rewrite lookup_insert_is_Some. destruct (decide (Counter o = Counter h)); auto. }
  assert (Hin : ∀ a' h', handles s' !! a' = Some h' →
            (a' = a ∧ h' = copy_of o) ∨ (a' ≠ a ∧ handles s !! a' = Some h')).
  { intros a' h'. rewrite Eh, lookup_insert_Some.
    intros [[<- <-]|[? ?]]; [by left|by right]. }
  apply wf_intro.
  - intros a' h' [[_ ->]|[_ H]]%Hin.
    + destruct (wf_linked s Hwf other o Ho) as (H1 & H2 & H3 & _).
      apply Hl. by repeat split.
    + apply Hl. by apply (wf_linked s Hwf a').
  - intros a1 h1 a2 h2 [[_ ->]|[_ H1]]%Hin [[_ ->]|[_ H2]]%Hin.
    + done.
    + apply (wf_in_sync s Hwf other o a2 h2 Ho H2).
    + apply (wf_in_sync s Hwf a1 h1 other o H1 Ho).
    + apply (wf_in_sync s Hwf a1 h1 a2 h2 H1 H2).
  - intros a1 h1 a2 h2 [[-> ->]|[? H1]]%Hin [[-> ->]|[? H2]]%Hin Hc Ho1 Ho2;
      try done.
    by apply (wf_one_original s Hwf a1 h1 a2 h2).
  - intros c v'. rewrite Ec, lookup_insert_Some. unfold counted. rewrite Hrc.
    intros [[<- <-]|[Hne H]].
    + rewrite decide_True by done. apply (wf_counted s Hwf) in Hv. lia.
    + rewrite decide_False by done. by apply (wf_counted s Hwf).
  - intros p Hp. rewrite En. apply (wf_below_mtx s Hwf). by apply Em.
  - intros p. rewrite En, Ec, lookup_insert_is_Some.
    intros [<-|[_ Hp]]; apply (wf_below_cnt s Hwf); eauto.
  - intros p. rewrite En, Ef. apply (wf_below_flg s Hwf).
  - rewrite Eh. rewrite map_size_insert_None by done. lia.
Qed.

Lemma wf_detach s s' a h v :
  wf s → handles s !! a = Some h → cnts s !! Counter h = Some v → v ≠ 1%Z →
  handles s' = delete a (handles s) →
  same_dom (mtxs s') (mtxs s) →
  cnts s' = <[Counter h := (v - 1)%Z]> (cnts s) →
  (flgs s' = flgs s ∨ IsOriginal h = true ∧ flgs s' = <[IsValid h := false]> (flgs s)) →
  next s' = next s →
  wf s'.
Proof.
  intros Hwf Ha Hv Hv1 Eh Em Ec Ef En.
  assert (Hrc : ∀ c, refCount c s' =
            if decide (Counter h = c) then pred (refCount c s) else refCount c s).
  { intros c. unfold refCount. rewrite Eh. by apply count_refs_delete. }
  assert (Hin : ∀ a' h', handles s' !! a' = Some h' →
            a' ≠ a ∧ handles s !! a' = Some h').
  { intros a' h'. rewrite Eh, lookup_delete_Some. intros [? ?]. by split. }
  assert (Hfs : ∀ p, is_Some (flgs s' !! p) ↔ is_Some (flgs s !! p)).
  { intros p. destruct Ef as [->|[_ ->]]; [done|].
    destruct (wf_linked s Hwf a h Ha) as (_ & _ & Hf & _).
    by apply same_dom_insert. }
  apply wf_intro.
  - intros a' h' [Hne H]%Hin.
    destruct (wf_linked s Hwf a' h' H) as (H1 & H2 & H3 & H4).
    unfold linked. rewrite Ec. repeat split.
    + by apply Em.
    + rewrite lookup_insert_is_Some. destruct (decide (Counter h = Counter h')); auto.
    + by apply Hfs.
    + intros Hor. destruct Ef as [->|[Hoh ->]]; [by auto|].
      rewrite lookup_insert_ne; [by auto|]. intros Heq.
      apply Hne. apply (wf_one_original s Hwf a' h' a h H Ha); [|done..].
      symmetry. by apply (wf_in_sync s Hwf a h a' h' Ha H).
  - intros a1 h1 a2 h2 [_ H1]%Hin [_ H2]%Hin.
    apply (wf_in_sync s Hwf a1 h1 a2 h2 H1 H2).
  - intros a1 h1 a2 h2 [_ H1]%Hin [_ H2]%Hin.
    exact (wf_one_original s Hwf a1 h1 a2 h2 H1 H2).
  - intros c v'. rewrite Ec, lookup_insert_Some. unfold counted. rewrite Hrc.
    intros [[<- <-]|[Hne H]].
    + rewrite decide_True by done. apply (wf_counted s Hwf) in Hv. lia.
    + rewrite decide_False by done. by apply (wf_counted s Hwf).
  - intros p Hp. rewrite En. apply (wf_below_mtx s Hwf). by apply Em.
  - intros p. rewrite En, Ec, lookup_insert_is_Some.
    intros [<-|[_ Hp]]; apply (wf_below_cnt s Hwf); eauto.
  - intros p Hp. rewrite En. apply (wf_below_flg s Hwf). by apply Hfs.
  - rewrite Eh. pose proof (wf_size s Hwf).
    rewrite map_size_delete_Some by eauto. lia.
Qed.

Lemma wf_detach_last s s' a h :
  wf s → handles s !! a = Some h → cnts s !! Counter h = Some 1%Z →
  handles s' = delete a (handles s) →
  same_dom (mtxs s') (delete (Mtx h) (mtxs s)) →
  cnts s' = delete (Counter h) (cnts s) →
  flgs s' = delete (IsValid h) (flgs s) →
  next s' = next s →
  wf s'.
Proof.
  intros Hwf Ha Hv Eh Em Ec Ef En.
  assert (Hrc : ∀ c, refCount c s' =
            if decide (Counter h = c) then pred (refCount c s) else refCount c s).
  { intros c. unfold refCount. rewrite Eh. by apply count_refs_delete. }
  assert (Hin : ∀ a' h', handles s' !! a' = Some h' →
            a' ≠ a ∧ handles s !! a' = Some h').
  { intros a' h'. rewrite Eh, lookup_delete_Some. intros [? ?]. by split. }
  assert (Hother : ∀ a' h', a' ≠ a → handles s !! a' = Some h' →
            Counter h' ≠ Counter h ∧ Mtx h' ≠ Mtx h ∧ IsValid h' ≠ IsValid h).
  { intros a' h' Hne H.
    assert (Counter h' ≠ Counter h) as Hc.
    { intros Hc. pose proof (count_refs_two _ _ _ _ _ Hne H Ha Hc) as H2.
      apply (wf_counted s Hwf) in Hv. unfold refCount in Hv. rewrite Hc in H2. lia. }
    destruct (wf_in_sync s Hwf a' h' a h H Ha) as [Hm Hf].
  repeat split; [done|by intros ?%Hm|by intros ?%Hf]. }
  apply wf_intro.
  - intros a' h' [Hne H]%Hin.
    destruct (wf_linked s Hwf a' h' H) as (H1 & H2 & H3 & H4).
    destruct (Hother a' h' Hne H) as (Hc & Hm & Hf).
    unfold linked. rewrite Ec, Ef. repeat split.
    + apply Em. by rewrite lookup_delete_ne.
    + by rewrite lookup_delete_ne.
    + by rewrite lookup_delete_ne.
    + rewrite lookup_delete_ne by done. auto.
  - intros a1 h1 a2 h2 [_ H1]%Hin [_ H2]%Hin.
    apply (wf_in_sync s Hwf a1 h1 a2 h2 H1 H2).
  - intros a1 h1 a2 h2 [_ H1]%Hin [_ H2]%Hin.
    exact (wf_one_original s Hwf a1 h1 a2 h2 H1 H2).
  - intros c v'. rewrite Ec, lookup_delete_Some. unfold counted. rewrite Hrc.
    intros [Hne H]. rewrite decide_False by done. by apply (wf_counted s Hwf).
  - intros p Hp%Em. rewrite En. apply (wf_below_mtx s Hwf).
    apply lookup_delete_is_Some in Hp. tauto.
  - intros p. rewrite En, Ec, lookup_delete_is_Some.
    intros [_ Hp]. by apply (wf_below_cnt s Hwf).
  - intros p. rewrite En, Ef, lookup_delete_is_Some.
    intros [_ Hp]. by apply (wf_below_flg s Hwf).
  - rewrite Eh. pose proof (wf_size s Hwf).
    rewrite map_size_delete_Some by eauto. lia.
Qed.

Lemma wf_fresh_block s s' a :
  wf s → handles s !! a = None →
  (Z.of_nat (size (handles s)) + 1 < SIZE_MOD)%Z →
  handles s' = <[a := mkMV (next s) (Pos.succ (next s)) (Pos.succ (Pos.succ (next s))) true]>
                 (handles s) →
  mtxs s' = <[next s := Free]> (mtxs s) →
  cnts s' = <[Pos.succ (next s) := 1%Z]> (cnts s) →
  flgs s' = <[Pos.succ (Pos.succ (next s)) := true]> (flgs s) →
  next s' = Pos.succ (Pos.succ (Pos.succ (next s))) →
  wf s'.
Proof.
  intros Hwf Ha Hsz Eh Em Ec Ef En.
  set (n := next s) in *.
  assert (Hold : ∀ a' h', handles s !! a' = Some h' →
            (Mtx h' < n ∧ Counter h' < n ∧ IsValid h' < n)%positive).
  { intros a' h' H. destruct (wf_linked s Hwf a' h' H) as (H1 & H2 & H3 & _).
    split; [by apply (wf_below_mtx s Hwf)|].
    split; [by apply (wf_below_cnt s Hwf)|by apply (wf_below_flg s Hwf)]. }
  assert (Hin : ∀ a' h', handles s' !! a' = Some h' →
            (a' = a ∧ h' = mkMV n (Pos.succ n) (Pos.succ (Pos.succ n)) true)
            ∨ (a' ≠ a ∧ handles s !! a' = Some h')).
  { intros a' h'. rewrite Eh, lookup_insert_Some.
    intros [[<- <-]|[? ?]]; [by left|by right]. }
  assert (Hrc : ∀ c, refCount c s' =
            if decide (Pos.succ n = c) then S (refCount c s) else refCount c s).
  { intros c. unfold refCount. rewrite Eh. by rewrite count_refs_insert. }
  apply wf_intro.
  - intros a' h' [[_ ->]|[_ H]]%Hin; unfold linked; rewrite Em, Ec, Ef; simpl.
    + rewrite !lookup_insert_eq. by eauto.
    + destruct (wf_linked s Hwf a' h' H) as (H1 & H2 & H3 & H4).
      destruct (Hold a' h' H) as (L1 & L2 & L3).
      rewrite !lookup_insert_ne by lia. done.
  - intros a1 h1 a2 h2 [[_ ->]|[_ H1]]%Hin [[_ ->]|[_ H2]]%Hin.
    + done.
    + destruct (Hold a2 h2 H2) as (L1 & L2 & L3).
      unfold in_sync; simpl. split; split; intros; lia.
    + destruct (Hold a1 h1 H1) as (L1 & L2 & L3).
      unfold in_sync; simpl. split; split; intros; lia.
    + apply (wf_in_sync s Hwf a1 h1 a2 h2 H1 H2).
  - intros a1 h1 a2 h2 [[-> ->]|[? H1]]%Hin [[-> ->]|[? H2]]%Hin Hc Ho1 Ho2;
      simpl in *; try done.
    + destruct (Hold a2 h2 H2) as (L1 & L2 & L3). lia.
    + destruct (Hold a1 h1 H1) as (L1 & L2 & L3). lia.
    + by apply (wf_one_original s Hwf a1 h1 a2 h2).
  - intros c v'. rewrite Ec, lookup_insert_Some. unfold counted. rewrite Hrc.
    intros [[<- <-]|[Hne H]].
    + rewrite decide_True by done. unfold refCount.
      rewrite count_refs_zero; [lia|].
      intros a' h' H. destruct (Hold a' h' H) as (L1 & L2 & L3). lia.
    + rewrite decide_False by done. by apply (wf_counted s Hwf).
  - intros p. rewrite En, Em, lookup_insert_is_Some.
    intros [<-|[_ Hp]]; [lia|]. apply (wf_below_mtx s Hwf) in Hp. fold n in Hp. lia.
  - intros p. rewrite En, Ec, lookup_insert_is_Some.
    intros [<-|[_ Hp]]; [lia|]. apply (wf_below_cnt s Hwf) in Hp. fold n in Hp. lia.
  - intros p. rewrite En, Ef, lookup_insert_is_Some.
    intros [<-|[_ Hp]]; [lia|]. apply (wf_below_flg s Hwf) in Hp. fold n in Hp. lia.
  - rewrite Eh. rewrite map_size_insert_None by done. lia.
Qed.

Lemma wf_same s s' :
  wf s → handles s' = handles s → same_dom (mtxs s') (mtxs s) →
  cnts s' = cnts s → flgs s' = flgs s → next s' = next s → wf s'.
Proof.
  intros Hwf Eh Em Ec Ef En. apply wf_intro.
  - intros a h. rewrite Eh. intros Ha.
    destruct (wf_linked s Hwf a h Ha) as (H1 & H2 & H3 & H4).
    unfold linked. rewrite Ec, Ef. repeat split; try done. by apply Em.
  - intros a1 h1 a2 h2. rewrite Eh. apply (wf_in_sync s Hwf).
  - intros a1 h1 a2 h2. rewrite Eh. intros H1 H2.
    exact (wf_one_original s Hwf a1 h1 a2 h2 H1 H2).
  - intros c v. rewrite Ec. unfold counted, refCount. rewrite Eh.
    apply (wf_counted s Hwf).
  - intros p Hp. rewrite En. apply (wf_below_mtx s Hwf). by apply Em.
  - intros p. rewrite En, Ec. apply (wf_below_cnt s Hwf).
  - intros p. rewrite En, Ef. apply (wf_below_flg s Hwf).
  - rewrite Eh. apply (wf_size s Hwf).
Qed.

(** ** Every member function keeps the state well-formed *)

Lemma wf_wrap_dec s a h v :
  wf s → handles s !! a = Some h → cnts s !! Counter h = Some v →
  wrap (v - 1) = (v - 1)%Z ∧ (wrap (v - 1) = 0%Z ↔ v = 1%Z).
Proof.
  intros Hwf Ha Hv. destruct (wf_counted s Hwf _ _ Hv) as [Hc Hpos].
  pose proof (wf_refCount_bound s Hwf (Counter h)).
  rewrite wrap_small by lia. lia.
Qed.

Lemma ctor_default_wf a s r s' :
  wf s → (Z.of_nat (size (handles s)) + 1 < SIZE_MOD)%Z →
  ctor_default a s = Ok (r, s') → wf s'.
Proof.
  intros Hwf Hsz. destruct (handles s !! a) as [h|] eqn:Ha.
  - unfold_ops. by rewrite Ha.
  - rewrite ctor_default_ok by done. intros [= _ <-].
    by apply (wf_fresh_block s _ a).
Qed.

Lemma link_wf t a other s r s' :
  wf s → handles s !! a = None →
  (Z.of_nat (size (handles s)) + 1 < SIZE_MOD)%Z →
  link t a other s = Ok (r, s') → wf s'.
Proof.
  intros Hwf Ha Hsz H.
  destruct (link_inv _ _ _ _ _ H) as (o & m & m' & v & Ho & Hm & Hacq & Hv).
  rewrite (link_ok _ _ _ _ _ _ _ _ Ho Hm Hacq Hv) in H. injection H as _ <-.
  apply (wf_attach s _ a other o v); try done.
  simpl. f_equal. apply wrap_small.
  destruct (wf_counted s Hwf _ _ Hv) as [-> _].
  pose proof (count_refs_le (handles s) (Counter o)). unfold refCount. lia.
Qed.

Lemma ctor_copy_wf t a other s r s' :
  wf s → (Z.of_nat (size (handles s)) + 1 < SIZE_MOD)%Z →
  ctor_copy t a other s = Ok (r, s') → wf s'.
Proof.
  intros Hwf Hsz. destruct (handles s !! a) as [h|] eqn:Ha.
  - unfold_ops. by rewrite Ha.
  - rewrite ctor_copy_link by done. by apply link_wf.
Qed.

Lemma dtor_wf t a s r s' : wf s → dtor t a s = Ok (r, s') → wf s'.
Proof.
  intros Hwf H.
  destruct (dtor_inv _ _ _ _ H) as (h & m & m' & v & Ha & Hm & Hacq & Hv).
  destruct (wf_linked s Hwf a h Ha) as (_ & _ & [b Hb] & _).
  rewrite (dtor_ok _ _ _ _ _ _ _ _ Ha Hm Hacq Hv Hb) in H. injection H as _ <-.
  destruct (wf_wrap_dec s a h v Hwf Ha Hv) as [Hw Hz].
  case_decide as Hd.
  - apply Hz in Hd. subst v. by apply (wf_detach_last s _ a h).
  - assert (v ≠ 1%Z) by (intros ?; by apply Hd, Hz).
    apply (wf_detach s _ a h v); try done; simpl.
    + by rewrite Hw.
    + destruct (IsOriginal h); auto.
Qed.

Lemma release_wf t a h v s :
  wf s → handles s !! a = Some h → cnts s !! Counter h = Some v →
  wf (set_handles (delete a) (release_state t h v s)).
Proof.
  intros Hwf Ha Hv.
  destruct (wf_wrap_dec s a h v Hwf Ha Hv) as [Hw Hz].
  unfold release_state. case_decide as Hd.
  - apply Hz in Hd. subst v. by apply (wf_detach_last s _ a h).
  - assert (v ≠ 1%Z) by (intros ?; by apply Hd, Hz).
    apply (wf_detach s _ a h v); try done; simpl; [by rewrite Hw|auto].
Qed.

Lemma release_state_handles t h v s : handles (release_state t h v s) = handles s.
Proof. unfold release_state. by case_decide. Qed.

Lemma release_state_next t h v s : next (release_state t h v s) = next s.
Proof. unfold release_state. by case_decide. Qed.

Lemma release_state_stdout t h v s : stdout (release_state t h v s) = stdout s.
Proof. unfold release_state. by case_decide. Qed.

Lemma assign_wf t a other s r s' : wf s → assign t a other s = Ok (r, s') → wf s'.
Proof.
  intros Hwf H. destruct (decide (a = other)) as [->|Hne].
  { rewrite assign_self in H. by injection H as _ <-. }
  destruct (assign_inv _ _ _ _ _ H Hne) as (h & m & m' & v & Ha & Hm & Hacq & Hv).
  destruct (wf_linked s Hwf a h Ha) as (_ & _ & [b Hb] & _).
  rewrite (assign_split _ _ _ _ _ _ _ _ _ Hne Ha Hm Hacq Hv Hb) in H.
  pose proof (release_wf t a h v s Hwf Ha Hv) as Hwf1.
  set (s1 := release_state t h v s) in *.
  destruct (link_inv _ _ _ _ _ H) as (o & mo & mo' & vo & Ho & Hmo & Hacqo & Hvo).
  rewrite (link_ok _ _ _ _ _ _ _ _ Ho Hmo Hacqo Hvo) in H. injection H as _ <-.
  assert (handles s1 = handles s) as Eh by apply release_state_handles.
  assert (Z.of_nat (size (handles (set_handles (delete a) s1))) + 1 < SIZE_MOD)%Z as Hsz.
  { simpl. rewrite Eh. pose proof (wf_size s Hwf).
    rewrite map_size_delete_Some by eauto.
    assert (size (handles s) ≠ 0); [|lia].
    apply map_size_non_empty_iff. intros He. by rewrite He in Ha. }
  apply (wf_attach (set_handles (delete a) s1) _ a other o vo); try done; simpl.
  - apply lookup_delete_eq.
  - by rewrite lookup_delete_ne.
  - by rewrite insert_delete_eq.
  - f_equal. apply wrap_small.
    destruct (wf_counted _ Hwf1 (Counter o) vo Hvo) as [-> _].
    pose proof (count_refs_le (handles (set_handles (delete a) s1)) (Counter o)).
    unfold refCount. lia.
Qed.

Lemma Lock_wf t a s r s' : wf s → Lock t a s = Ok (r, s') → wf s'.
Proof.
  intros Hwf. unfold_ops.
  destruct (handles s !! a) as [h|]; [simpl|done].
  destruct (mtxs s !! Mtx h) as [m|] eqn:Hm; [simpl|done].
  destruct (acquire t m) as [m'|]; [simpl|done].
  intros [= _ <-]. apply (wf_same s); try done. simpl. by apply same_dom_insert.
Qed.

Lemma TryLock_wf t a s r s' : wf s → TryLock t a s = Ok (r, s') → wf s'.
Proof.
  intros Hwf. unfold_ops.
  destruct (handles s !! a) as [h|]; [simpl|done].
  destruct (mtxs s !! Mtx h) as [m|] eqn:Hm; [simpl|done].
  destruct (acquire t m) as [m'|]; simpl; intros [= _ <-].
  - apply (wf_same s); try done. simpl. by apply same_dom_insert.
  - by apply (wf_same s).
Qed.

Lemma Unlock_wf t a s r s' : wf s → Unlock t a s = Ok (r, s') → wf s'.
Proof.
  intros Hwf. unfold_ops.
  destruct (handles s !! a) as [h|]; [simpl|done].
  destruct (mtxs s !! Mtx h) as [m|] eqn:Hm; simpl.
  - destruct (release t m) as [m'|]; [simpl|done].
    intros [= _ <-]. apply (wf_same s); try done. simpl. by apply same_dom_insert.
  - intros [= _ <-]. by apply (wf_same s).
Qed.

Lemma GetIsValid_state a s r s' : GetIsValid a s = Ok (r, s') → s' = s.
Proof.
  unfold_ops.
  destruct (handles s !! a) as [h|]; [simpl|done].
  destruct (flgs s !! IsValid h); [simpl|done]. by intros [= _ <-].
Qed.

Lemma step_wf o s r s' : wf s → room 1 s → step o s = Ok (r, s') → wf s'.
Proof.
  unfold room. intros Hwf Hroom. destruct o; simpl.
  - apply ctor_default_wf; [done|lia].
  - apply ctor_copy_wf; [done|lia].
  - by apply assign_wf.
  - by apply dtor_wf.
  - by apply Lock_wf.
  - unfold mbind at 1, M_bind at 1. destruct (TryLock t a s) as [[b s1]| |] eqn:E; [|done..].
    intros [= _ <-]. by apply (TryLock_wf t a s b).
  - by apply Unlock_wf.
  - unfold mbind at 1, M_bind at 1. destruct (GetIsValid a s) as [[b s1]| |] eqn:E; [|done..].
    intros [= _ <-]. by rewrite (GetIsValid_state _ _ _ _ E).
Qed.

(** ** The last handle of a block, and assignment in full *)

Lemma sole_owner s a h a' h' :
  wf s → handles s !! a = Some h → cnts s !! Counter h = Some 1%Z →
  a' ≠ a → handles s !! a' = Some h' →
  Counter h' ≠ Counter h ∧ Mtx h' ≠ Mtx h ∧ IsValid h' ≠ IsValid h.
Proof.
  intros Hwf Ha Hv Hne H.
  assert (Counter h' ≠ Counter h) as Hc.
  { intros Hc. pose proof (count_refs_two _ _ _ _ _ Hne H Ha Hc) as H2.
    apply (wf_counted s Hwf) in Hv. unfold refCount in Hv. rewrite Hc in H2. lia. }
  destruct (wf_in_sync s Hwf a' h' a h H Ha) as [Hm Hf].
  repeat split; [done|by intros ?%Hm|by intros ?%Hf].
Qed.

Lemma shared_block_count s a h a' h' v :
  wf s → handles s !! a = Some h → handles s !! a' = Some h' → a' ≠ a →
  Counter h' = Counter h → cnts s !! Counter h = Some v → (2 ≤ v)%Z.
Proof.
  intros Hwf Ha Ha' Hne Hc Hv.
  pose proof (count_refs_two _ _ _ _ _ Hne Ha' Ha Hc) as H2.
  apply (wf_counted s Hwf) in Hv. unfold refCount in Hv. rewrite Hc in H2. lia.
Qed.

Lemma other_block_room s a h a' h' v' :
  wf s → handles s !! a = Some h → handles s !! a' = Some h' →
  Counter h' ≠ Counter h → cnts s !! Counter h' = Some v' →
  (v' + 1 < SIZE_MOD)%Z.
Proof.
  intros Hwf Ha Ha' Hc Hv'.
  destruct (wf_counted s Hwf _ _ Hv') as [-> _]. unfold refCount.
  pose proof (count_refs_delete (handles s) a h (Counter h') Ha) as Hd.
  rewrite decide_False in Hd by done.
  pose proof (count_refs_le (delete a (handles s)) (Counter h')) as Hle.
  rewrite map_size_delete_Some in Hle by eauto.
  pose proof (wf_size s Hwf).
  assert (size (handles s) ≠ 0).
  { apply map_size_non_empty_iff. intros He. by rewrite He in Ha. }
  lia.
Qed.

Lemma assign_run t a other h o m m' mo mo' v vo s :
  wf s → a ≠ other →
  handles s !! a = Some h → handles s !! other = Some o →
  mtxs s !! Mtx h = Some m → acquire t m = Some m' →
  mtxs s !! Mtx o = Some mo → acquire t mo = Some mo' →
  cnts s !! Counter h = Some v → cnts s !! Counter o = Some vo →
  assign t a other s = Ok (tt,
    let s1 := release_state t h v s in
    let n := ((if decide (Counter o = Counter h) then v - 1 else vo) + 1)%Z in
    mkState (<[a := copy_of o]> (handles s)) (mtxs s1)
            (<[Counter o := n]> (cnts s1)) (flgs s1) (next s)
            (trace s1 ++ link_events t o n) (stdout s)).
Proof.
  intros Hwf Hne Ha Ho Hm Hacq Hmo Hacqo Hv Hvo.
  destruct (wf_linked s Hwf a h Ha) as (_ & _ & [b Hb] & _).
  destruct (wf_wrap_dec s a h v Hwf Ha Hv) as [Hw Hz].
  rewrite (assign_split _ _ _ _ _ _ _ _ _ Hne Ha Hm Hacq Hv Hb).
  cbn zeta.
  assert (mtxs (release_state t h v s) !! Mtx o = Some mo) as Hmo1.
  { unfold release_state. case_decide as Hd; red_state; [|done].
    apply Hz in Hd. subst v.
    destruct (sole_owner s a h other o Hwf Ha Hv (not_eq_sym Hne) Ho) as (_ & ? & _).
    by rewrite lookup_delete_ne. }
  assert (cnts (release_state t h v s) !! Counter o
          = Some (if decide (Counter o = Counter h) then v - 1 else vo)%Z) as Hvo1.
  { unfold release_state. rewrite Hw. case_decide as Hd; red_state.
    - assert (v = 1%Z) by lia. subst v.
      destruct (sole_owner s a h other o Hwf Ha Hv (not_eq_sym Hne) Ho) as (? & _).
      rewrite decide_False by done. by rewrite lookup_delete_ne.
    - case_decide as Hc; [by rewrite Hc, lookup_insert_eq|].
      by rewrite lookup_insert_ne. }
  rewrite (link_ok t a other o mo mo' _ _
             (eq_trans (f_equal (.!! other) (release_state_handles t h v s)) Ho)
             Hmo1 Hacqo Hvo1).
  rewrite release_state_handles, release_state_next, release_state_stdout.
  rewrite wrap_small; [done|].
  case_decide as Hc.
  - destruct (wf_counted s Hwf _ _ Hv) as [Hcnt Hpos].
    pose proof (wf_refCount_bound s Hwf (Counter h)). lia.
  - pose proof (other_block_room s a h other o vo Hwf Ha Ho Hc Hvo).
    destruct (wf_counted s Hwf _ _ Hvo). lia.
Qed.

Lemma wf_decide s : bool_decide (wf s) = true → wf s.
Proof. intros H. apply (bool_decide_unpack (wf s)). by rewrite H. Qed.

(** ** How one operation changes a flag *)

Lemma flag_rel_same o s f x : flag_rel o s f x x.
Proof. destruct x; simpl; auto. Qed.

Lemma flag_rel_delete o s f p (m : gmap positive bool) :
  flag_rel o s f (m !! f) (delete p m !! f).
Proof.
  destruct (decide (p = f)) as [->|Hne].
  - rewrite lookup_delete_eq. by destruct (m !! f).
  - rewrite lookup_delete_ne by done. apply flag_rel_same.
Qed.

Lemma step_effect o s r s' f :
  wf s → room 1 s → step o s = Ok (r, s') →
  size (handles s') ≤ S (size (handles s)) ∧
  (next s ≤ next s')%positive ∧
  flag_rel o s f (flgs s !! f) (flgs s' !! f).
Proof.
  intros Hwf Hroom. destruct o as [a|t a other|t a other|t a|t a|t a|t a|a]; simpl.
  - destruct (handles s !! a) as [h|] eqn:Ha.
    { unfold_ops. by rewrite Ha. }
    rewrite ctor_default_ok by done. intros [= _ <-]. red_state.
    rewrite map_size_insert_None by done. split; [done|]. split; [lia|].
    destruct (decide (Pos.succ (Pos.succ (next s)) = f)) as [<-|Hne].
    + rewrite lookup_insert_eq.
      destruct (flgs s !! Pos.succ (Pos.succ (next s))) as [b|] eqn:Hb.
      * pose proof (wf_below_flg s Hwf _ (mk_is_Some _ _ Hb)). lia.
      * simpl. split; [done|lia].
    + rewrite lookup_insert_ne by done. apply flag_rel_same.
  - destruct (handles s !! a) as [h|] eqn:Ha.
    { unfold_ops. by rewrite Ha. }
    rewrite ctor_copy_link by done. intros H.
    destruct (link_inv _ _ _ _ _ H) as (o & m & m' & v & Ho & Hm & Hacq & Hv).
    rewrite (link_ok _ _ _ _ _ _ _ _ Ho Hm Hacq Hv) in H. injection H as _ <-.
    red_state. rewrite map_size_insert_None by done.
    split; [done|]. split; [lia|]. apply flag_rel_same.
  - intros H. destruct (decide (a = other)) as [->|Hne].
    { rewrite assign_self in H. injection H as _ <-.
      split; [lia|]. split; [lia|]. apply flag_rel_same. }
    destruct (assign_inv _ _ _ _ _ H Hne) as (h & m & m' & v & Ha & Hm & Hacq & Hv).
    destruct (wf_linked s Hwf a h Ha) as (_ & _ & [b Hb] & _).
    rewrite (assign_split _ _ _ _ _ _ _ _ _ Hne Ha Hm Hacq Hv Hb) in H.
    destruct (link_inv _ _ _ _ _ H) as (o & mo & mo' & vo & Ho & Hmo & Hacqo & Hvo).
    rewrite (link_ok _ _ _ _ _ _ _ _ Ho Hmo Hacqo Hvo) in H. injection H as _ <-.
    red_state. rewrite release_state_handles, release_state_next.
    rewrite map_size_insert_Some by eauto.
    split; [lia|]. split; [lia|].
    unfold release_state. case_decide; red_state;
      [apply flag_rel_delete|apply flag_rel_same].
  - intros H.
    destruct (dtor_inv _ _ _ _ H) as (h & m & m' & v & Ha & Hm & Hacq & Hv).
    destruct (wf_linked s Hwf a h Ha) as (_ & _ & [b Hb] & Hor).
    rewrite (dtor_ok _ _ _ _ _ _ _ _ Ha Hm Hacq Hv Hb) in H. injection H as _ <-.
    case_decide; red_state; rewrite map_size_delete_Some by eauto.
    + split; [lia|]. split; [lia|]. apply flag_rel_delete.
    + split; [lia|]. split; [lia|].
      destruct (IsOriginal h) eqn:Eo; [|apply flag_rel_same].
      destruct (decide (IsValid h = f)) as [<-|Hne].
      * rewrite lookup_insert_eq, (Hor eq_refl). simpl. right.
        repeat split. by exists t, a, h.
      * rewrite lookup_insert_ne by done. apply flag_rel_same.
  - unfold_ops.
    destruct (handles s !! a) as [h|]; [red_state|done].
    destruct (mtxs s !! Mtx h) as [m|]; [red_state|done].
    destruct (acquire t m) as [m'|]; [red_state|done].
    intros [= _ <-]. red_state. split; [lia|]. split; [lia|]. apply flag_rel_same.
  - unfold_ops.
    destruct (handles s !! a) as [h|]; [red_state|done].
    destruct (mtxs s !! Mtx h) as [m|]; [red_state|done].
    destruct (acquire t m) as [m'|]; red_state; intros [= _ <-]; red_state;
      (split; [lia|]); (split; [lia|]); apply flag_rel_same.
  - unfold_ops.
    destruct (handles s !! a) as [h|]; [red_state|done].
    destruct (mtxs s !! Mtx h) as [m|]; red_state.
    + destruct (release t m) as [m'|]; [red_state|done].
      intros [= _ <-]. red_state. split; [lia|]. split; [lia|]. apply flag_rel_same.
    + intros [= _ <-]. red_state. split; [lia|]. split; [lia|]. apply flag_rel_same.
  - unfold_ops.
    destruct (handles s !! a) as [h|]; [red_state|done].
    destruct (flgs s !! IsValid h) as [b|] eqn:Hb; [red_state|done].
    intros [= _ <-]. split; [lia|]. split; [lia|]. apply flag_rel_same.
Qed.

Lemma step_room o s r s' k :
  wf s → room (S k) s → step o s = Ok (r, s') → room k s'.
Proof.
  intros Hwf Hroom H. unfold room in *.
  destruct (step_effect o s r s' 1%positive Hwf) as (Hsz & _); [|done|].
  - unfold room. lia.
  - lia.
Qed.

Lemma room_weaken k s : room (S k) s → room 1 s.
Proof. unfold room. lia. Qed.

Lemma run_wf ops : ∀ s r s',
  wf s → room (length ops) s → run ops s = Ok (r, s') → wf s'.
Proof.
  induction ops as [|o rest IH]; intros s r s' Hwf Hroom; simpl.
  - by intros [= _ <-].
  - unfold mbind, M_bind. destruct (step o s) as [[[] s1]| |] eqn:E; [|done..].
    apply IH.
    + by apply (step_wf o s tt s1 Hwf (room_weaken _ _ Hroom)).
    + by apply (step_room o s tt s1).
Qed.

(** ** The history of a flag along a run *)

Lemma phase_mono o s r s' f :
  wf s → room 1 s → step o s = Ok (r, s') → phase f s ≤ phase f s'.
Proof.
  intros Hwf Hroom H.
  destruct (step_effect o s r s' f Hwf Hroom H) as (_ & Hn & Hf).
  unfold phase. unfold flag_rel in Hf.
  destruct (flgs s !! f) as [b|] eqn:Hb, (flgs s' !! f) as [b'|] eqn:Hb'.
  - destruct Hf as [->|(-> & -> & _)]; [done|lia].
  - pose proof (wf_below_flg s Hwf f (mk_is_Some _ _ Hb)).
    rewrite decide_True by lia. destruct b; lia.
  - destruct Hf as [-> Hf]. rewrite decide_False by lia. lia.
  - repeat case_decide; lia.
Qed.

Lemma flag_history_head f ops s :
  ∃ tl, flag_history f ops s = flgs s !! f :: tl.
Proof. destruct ops; simpl; eauto. Qed.

Lemma history_changes f ops : ∀ s,
  wf s → room (length ops) s →
  changes false true (flag_history f ops s) = 0 ∧
  changes true false (flag_history f ops s) ≤ (if decide (phase f s ≤ 1) then 1 else 0).
Proof.
  induction ops as [|o rest IH]; intros s Hwf Hroom.
  { simpl. split; [done|]. case_decide; lia. }
  cbn [flag_history]. destruct (step o s) as [[[] s1]| |] eqn:E;
    [|simpl; split; [done|case_decide; lia]..].
  assert (room 1 s) as Hr1 by (by apply (room_weaken (length rest))).
  pose proof (step_wf o s tt s1 Hwf Hr1 E) as Hwf1.
  pose proof (step_room o s tt s1 _ Hwf Hroom E) as Hroom1.
  pose proof (phase_mono o s tt s1 f Hwf Hr1 E) as Hmono.
  destruct (step_effect o s tt s1 f Hwf Hr1 E) as (_ & _ & Hf).
  destruct (IH s1 Hwf1 Hroom1) as [IH1 IH2].
  destruct (flag_history_head f rest s1) as [tl Etl].
  rewrite Etl in *. cbn [changes]. cbn [changes] in IH1, IH2.
  unfold flag_rel in Hf. unfold phase in *.
  destruct (flgs s !! f) as [[]|], (flgs s1 !! f) as [[]|];
    repeat case_decide; try lia;
    repeat match goal with
    | H : _ ∧ _ |- _ => destruct H
    | H : _ ∨ _ |- _ => destruct H
    | H : ¬ (_ ∧ _) |- _ => exfalso; apply H; by split
    end; try discriminate; try lia.
Qed.

(** ** Destroying every handle of a block *)

Lemma countdown_nonneg n : Forall (λ v, (0 ≤ v)%Z) (countdown n).
Proof. induction n; simpl; constructor; [lia|done]. Qed.

Lemma countdown_zero_once n :
  n ≠ 0 → length (filter (λ v, v = 0%Z) (countdown n)) = 1.
Proof.
  induction n as [|k IH]; [done|]. intros _. simpl.
  destruct k as [|k'].
  - by rewrite filter_cons_True.
  - rewrite filter_cons_False by lia. by apply IH.
Qed.

Lemma dtor_events_deletes t h n :
  filter is_delete (dtor_events t h n) = free_events h n.
Proof.
  unfold dtor_events, free_events.
  destruct (IsOriginal h); case_decide; reflexivity.
Qed.

Lemma dtor_events_decrements t h n :
  decrements (Counter h) (dtor_events t h n) = [n].
Proof.
  unfold dtor_events, free_events, decrements.
  destruct (IsOriginal h); case_decide; simpl; by rewrite decide_True.
Qed.

Lemma destroy_all t c m f ms ms' : ∀ (objs : list obj) s,
  wf s → NoDup objs → objs ≠ [] →
  (∀ a, a ∈ objs → ∃ h, handles s !! a = Some h ∧
                         Mtx h = m ∧ Counter h = c ∧ IsValid h = f) →
  refCount c s = length objs →
  mtxs s !! m = Some ms → acquire t ms = Some ms' →
  ∃ s' evs,
    run (map (ODestroy t) objs) s = Ok (tt, s') ∧
    trace s' = trace s ++ evs ∧
    filter is_delete evs = [EDeleteMtx m; EDeleteCounter c; EDeleteFlag f] ∧
    decrements c evs = countdown (length objs) ∧
    mtxs s' !! m = None ∧ cnts s' !! c = None ∧ flgs s' !! f = None ∧
    (∀ a, a ∈ objs ∨ handles s !! a = None → handles s' !! a = None).
Proof.
  induction objs as [|a rest IH]; intros s Hwf Hnd Hne Hall Hcount Hm Hacq; [done|].
  destruct (Hall a) as (h & Ha & Em & Ec & Ef); [by left|].
  apply NoDup_cons in Hnd as [Hnotin Hnd].
  pose proof (wf_count s Hwf a h Ha) as Hv. rewrite Ec, Hcount in Hv.
  rewrite <- Ec in Hv.
  destruct (wf_linked s Hwf a h Ha) as (_ & _ & [b Hb] & _).
  assert (mtxs s !! Mtx h = Some ms) as Hm' by (by rewrite Em).
  pose proof (dtor_ok _ _ _ _ _ _ _ _ Ha Hm' Hacq Hv Hb) as Hd.
  destruct (wf_wrap_dec s a h _ Hwf Ha Hv) as [Hw Hz].
  cbn [map run step]. unfold mbind at 1, M_bind at 1. rewrite Hd.
  assert (Z.of_nat (length (a :: rest)) - 1 = Z.of_nat (length rest))%Z as Elen
    by (cbn [length]; lia).
  rewrite Hw, Elen in *.
  destruct rest as [|a2 rest'].
  - (* the last handle: the block goes *)
    rewrite decide_True by done. cbn [map run]. unfold mret, M_ret.
    eexists _, _. split; [reflexivity|]. red_state.
    split; [reflexivity|].
    rewrite <- Em, <- Ec, <- Ef.
    rewrite dtor_events_deletes, dtor_events_decrements.
    unfold free_events. rewrite decide_True by done.
    rewrite !lookup_delete_eq.
    repeat split; try done.
    intros x [Hx|Hx].
    + apply list_elem_of_singleton in Hx as ->. apply lookup_delete_eq.
    + rewrite lookup_delete_None. by right.
  - (* other handles remain *)
    rewrite decide_False by (cbn [length]; lia).
    match goal with |- context [run _ ?s1] => set (s1' := s1) end.
    assert (wf s1') as Hwf1.
    { apply (dtor_wf t a s tt); [done|]. rewrite Hd.
      by rewrite decide_False by (cbn [length]; lia). }
    destruct (IH s1' Hwf1 Hnd) as (s' & evs & Hrun & Htr & Hdel & Hdec & H1 & H2 & H3 & H4).
    + done.
    + intros x Hx. destruct (Hall x) as (hx & Hhx & ?); [by right|].
      exists hx. split; [|done]. unfold s1'. red_state.
      rewrite lookup_delete_ne; [done|]. by intros ->.
    + unfold s1', refCount. red_state.
      rewrite (count_refs_delete _ _ h) by done. rewrite decide_True by done.
      unfold refCount in Hcount. by rewrite Hcount.
    + unfold s1'. by red_state.
    + done.
    + exists s', (dtor_events t h (Z.of_nat (length (a2 :: rest'))) ++ evs).
      split; [done|]. split.
      { rewrite Htr. unfold s1'. red_state. by rewrite <- app_assoc. }
      split.
      { rewrite filter_app, dtor_events_deletes. unfold free_events.
        by rewrite decide_False by (cbn [length]; lia). }
      split.
      { unfold decrements in *. rewrite omap_app.
        fold (decrements c (dtor_events t h (Z.of_nat (length (a2 :: rest'))))).
        rewrite <- Ec at 1. by rewrite dtor_events_decrements, Hdec. }
      repeat split; try done.
      intros x [Hx|Hx].
      * apply elem_of_cons in Hx as [->|Hx]; [|by apply H4; left].
        apply H4. right. unfold s1'. red_state. apply lookup_delete_eq.
      * apply H4. right. unfold s1'. red_state. rewrite lookup_delete_None. by right.
Qed.

(** * The claims *)

(** C1, evaluated: an original (address 1, block 1/2/3) has one copy
    (address 2); assigning to the original from a handle on another block
    releases block 1/2/3 without storing [false] in its flag, so the copy
    still reads [true] although no original is left on its block.  The
    destructor of the same original does store [false]. *)
Theorem assignment_release_keeps_flag :
  ∃ s' s'',
    handles two_blocks !! 1%positive = Some (mkMV 1 2 3 true) ∧
    flgs two_blocks !! 3%positive = Some true ∧
    assign 0 1 3 two_blocks = Ok (tt, s') ∧
    trace s' = trace two_blocks ++
      [ELock 0 1; EDec 2 1; EUnlock 0 1; ELock 0 4; EInc 5 2; EUnlock 0 4] ∧
    handles s' !! 1%positive = Some (mkMV 4 5 6 false) ∧
    flgs s' !! 3%positive = Some true ∧
    GetIsValid 2 s' = Ok (true, s') ∧
    dtor 0 1 two_blocks = Ok (tt, s'') ∧
    trace s'' = trace two_blocks ++
      [ELock 0 1; EStoreFlag 3 false; EDec 2 1; EUnlock 0 1] ∧
    flgs s'' !! 3%positive = Some false.
Proof.
  eexists _, _. split; [by vm_compute|]. split; [by vm_compute|].
  split; [vm_compute; reflexivity|]. split; [by vm_compute|].
  split; [by vm_compute|]. split; [by vm_compute|]. split; [by vm_compute|].
  split; [vm_compute; reflexivity|]. split; by vm_compute.
Qed.

(** C2, evaluated: the original (address 1) of block 1/2/3 has a copy
    (address 2).  The original is released from the block by an assignment
    and then destroyed, and the copy is destroyed last.  Over the whole life
    of the block its flag is never cleared: the copy reads [true] after the
    original is gone, and the cell goes from [true] straight to deleted.
    When the same original is destroyed without the assignment, the flag
    goes from [true] to [false] once. *)
Theorem released_original_never_clears_flag :
  handles two_blocks !! 1%positive = Some (mkMV 1 2 3 true) ∧
  handles two_blocks !! 2%positive = Some (mkMV 1 2 3 false) ∧
  flag_history 3 [OAssign 0 1 3; ODestroy 0 1; ODestroy 0 2; ODestroy 0 3] two_blocks
    = [Some true; Some true; Some true; None; None] ∧
  changes true false
    (flag_history 3 [OAssign 0 1 3; ODestroy 0 1; ODestroy 0 2; ODestroy 0 3]
       two_blocks) = 0 ∧
  (∃ s1, run [OAssign 0 1 3; ODestroy 0 1] two_blocks = Ok (tt, s1) ∧
         handles s1 !! 1%positive = None ∧
         GetIsValid 2 s1 = Ok (true, s1)) ∧
  (∃ s2, run [OAssign 0 1 3; ODestroy 0 1; ODestroy 0 2; ODestroy 0 3] two_blocks
           = Ok (tt, s2) ∧ handles s2 = ∅) ∧
  flag_history 3 [ODestroy 0 1; ODestroy 0 2; ODestroy 0 3] two_blocks
    = [Some true; Some false; None; None] ∧
  changes true false
    (flag_history 3 [ODestroy 0 1; ODestroy 0 2; ODestroy 0 3] two_blocks) = 1.
Proof.
  split; [by vm_compute|]. split; [by vm_compute|].
  split; [by vm_compute|]. split; [by vm_compute|].
  split.
  { eexists. split; [vm_compute; reflexivity|]. split; by vm_compute. }
  split.
  { eexists. split; [vm_compute; reflexivity|]. by vm_compute. }
  split; by vm_compute.
Qed.

(** C3. In a well-formed state, and so in every state a run reaches from
    one (the initial state is well-formed), every live counter holds the
    number of live handles that point at it, and that number is not zero;
    default construction starts a counter at 1.  When all the handles of a
    block are destroyed, in whatever order [objs] lists them, the run
    completes, the counter is decremented to [n-1, ..., 1, 0] (never below
    0, and to 0 exactly once), the mutex, the counter and the flag of the
    block are each deleted exactly once, by the last destructor, and the
    block and the handles are gone. *)
Theorem refcount_counts_handles (s : state) (Hwf : wf s) :
  (∀ c v, cnts s !! c = Some v → v = Z.of_nat (refCount c s) ∧ (0 < v)%Z) ∧
  (∀ ops r s', room (length ops) s → run ops s = Ok (r, s') →
     ∀ c v, cnts s' !! c = Some v → v = Z.of_nat (refCount c s') ∧ (0 < v)%Z) ∧
  (∀ a, handles s !! a = None →
     ∃ s' h, ctor_default a s = Ok (tt, s') ∧ handles s' !! a = Some h ∧
             cnts s' !! Counter h = Some 1%Z ∧ refCount (Counter h) s' = 1) ∧
  (∀ t objs c m f ms ms',
     NoDup objs → objs ≠ [] →
     (∀ a, a ∈ objs → ∃ h, handles s !! a = Some h ∧
                            Mtx h = m ∧ Counter h = c ∧ IsValid h = f) →
     refCount c s = length objs →
     mtxs s !! m = Some ms → acquire t ms = Some ms' →
     ∃ s' evs,
       run (map (ODestroy t) objs) s = Ok (tt, s') ∧
       trace s' = trace s ++ evs ∧
       filter is_delete evs = [EDeleteMtx m; EDeleteCounter c; EDeleteFlag f] ∧
       decrements c evs = countdown (length objs) ∧
       Forall (λ v, (0 ≤ v)%Z) (decrements c evs) ∧
       length (filter (λ v, v = 0%Z) (decrements c evs)) = 1 ∧
       mtxs s' !! m = None ∧ cnts s' !! c = None ∧ flgs s' !! f = None ∧
       (∀ a, a ∈ objs → handles s' !! a = None)).
Proof.
  split; [|split; [|split]].
  - apply (wf_counted s Hwf).
  - intros ops r s' Hroom Hrun. apply wf_counted. by apply (run_wf ops s r s').
  - intros a Ha. rewrite ctor_default_ok by done.
    eexists _, _. split; [reflexivity|]. red_state.
    split; [apply lookup_insert_eq|]. cbn [Counter].
    split; [apply lookup_insert_eq|].
    unfold refCount. red_state. rewrite count_refs_insert by done.
    cbn [Counter]. rewrite decide_True by done.
    rewrite count_refs_zero; [done|].
    intros a' h' Ha' Hc.
    destruct (wf_linked s Hwf a' h' Ha') as (_ & Hl & _).
    apply (wf_below_cnt s Hwf) in Hl. lia.
  - intros t objs c m f ms ms' Hnd Hne Hall Hcount Hm Hacq.
    destruct (destroy_all t c m f ms ms' objs s Hwf Hnd Hne Hall Hcount Hm Hacq)
      as (s' & evs & Hrun & Htr & Hdel & Hdec & H1 & H2 & H3 & H4).
    exists s', evs. rewrite Hdec.
    repeat split; try done.
    + apply countdown_nonneg.
    + apply countdown_zero_once. by destruct objs.
    + intros a Ha. apply H4. by left.
Qed.

Lemma refcount_counts_handles_witness :
  (2%Z = Z.of_nat (refCount 2
           (state_after [ONew 1; OCopy 0 2 1; OCopy 0 3 2; OAssign 0 3 1; ODestroy 0 2]))
   ∧ (0 < 2)%Z) ∧
  (∃ s' evs,
     run (map (ODestroy 0) [2; 1; 3]%positive) three_handles = Ok (tt, s') ∧
     trace s' = trace three_handles ++ evs ∧
     filter is_delete evs = [EDeleteMtx 1; EDeleteCounter 2; EDeleteFlag 3] ∧
     decrements 2 evs = [2; 1; 0]%Z ∧
     Forall (λ v, (0 ≤ v)%Z) (decrements 2 evs) ∧
     length (filter (λ v, v = 0%Z) (decrements 2 evs)) = 1 ∧
     mtxs s' !! 1%positive = None ∧ cnts s' !! 2%positive = None ∧
     flgs s' !! 3%positive = None ∧
     (∀ a, a ∈ [2; 1; 3]%positive → handles s' !! a = None)).
Proof.
  assert (wf three_handles) as Hwf by (apply wf_decide; vm_compute; reflexivity).
  destruct (refcount_counts_handles three_handles Hwf) as (_ & H2 & _ & H4).
  split.
  - apply (H2 [OAssign 0 3 1; ODestroy 0 2] tt); vm_compute; reflexivity.
  - apply (H4 0 [2; 1; 3]%positive 2%positive 1%positive 3%positive Free (Held 0 1));
      try (vm_compute; reflexivity).
    + apply (bool_decide_unpack (NoDup [2; 1; 3]%positive)). vm_compute. exact I.
    + discriminate.
    + intros a Ha. exists (mkMV 1 2 3 (bool_decide (a = 1%positive))).
      apply elem_of_cons in Ha as [->|Ha]; [by vm_compute|].
      apply elem_of_cons in Ha as [->|Ha]; [by vm_compute|].
      apply elem_of_cons in Ha as [->|Ha]; [by vm_compute|].
      by apply elem_of_nil in Ha.
Defined.


(** C4. Self-assignment [h = h] is detected and does nothing: the state that
    comes back is the state that went in, so no reference count, validity
    flag or [IsOriginal] flag changes and nothing is released or re-linked
    (the log is unchanged too). *)
Theorem self_assignment_is_noop (t : tid) (a : obj) (s : state) :
  assign t a a s = Ok (tt, s).
Proof. apply assign_self. Qed.

(** C5. When a destructor, or the release half of an assignment, takes the
    counter to 0, the mutex, the counter and the flag are deleted first and
    [unlock] is called afterwards on the mutex that was just deleted: the
    log ends with the three deletes followed by the unlock of the same
    address, and at that point the mutex store no longer holds it. *)
Theorem unlock_follows_delete (t : tid) (a : obj) (h : MutexValidator)
    (m m' : recursive_mutex) (s : state) :
  wf s →
  handles s !! a = Some h →
  mtxs s !! Mtx h = Some m → acquire t m = Some m' →
  cnts s !! Counter h = Some 1%Z →
  (∃ s', dtor t a s = Ok (tt, s') ∧
     trace s' = trace s ++
       [ELock t (Mtx h)] ++
       (if IsOriginal h then [EStoreFlag (IsValid h) false] else []) ++
       [EDec (Counter h) 0;
        EDeleteMtx (Mtx h); EDeleteCounter (Counter h); EDeleteFlag (IsValid h);
        EUnlock t (Mtx h)] ∧
     mtxs s' !! Mtx h = None) ∧
  (∀ other o mo mo',
     a ≠ other → handles s !! other = Some o →
     mtxs s !! Mtx o = Some mo → acquire t mo = Some mo' →
     ∃ s' n, assign t a other s = Ok (tt, s') ∧
       trace s' = trace s ++
         [ELock t (Mtx h); EDec (Counter h) 0;
          EDeleteMtx (Mtx h); EDeleteCounter (Counter h); EDeleteFlag (IsValid h);
          EUnlock t (Mtx h);
          ELock t (Mtx o); EInc (Counter o) n; EUnlock t (Mtx o)] ∧
       mtxs s' !! Mtx h = None).
Proof.
  intros Hwf Ha Hm Hacq Hv.
  destruct (wf_linked s Hwf a h Ha) as (_ & _ & [b Hb] & _).
  destruct (wf_wrap_dec s a h 1 Hwf Ha Hv) as [Hw Hz].
  assert (wrap (1 - 1) = 0%Z) as Hw0 by (by apply Hz).
  split.
  - rewrite (dtor_ok _ _ _ _ _ _ _ _ Ha Hm Hacq Hv Hb).
    rewrite decide_True by done. eexists. split; [reflexivity|]. red_state.
    unfold dtor_events, free_events. rewrite Hw0. rewrite decide_True by done.
    split; [done|]. by rewrite lookup_delete_eq.
  - intros other o mo mo' Hne Ho Hmo Hacqo.
    destruct (wf_linked s Hwf other o Ho) as (_ & [vo Hvo] & _).
    rewrite (assign_run _ _ _ _ _ _ _ _ _ _ _ _ Hwf Hne Ha Ho Hm Hacq Hmo Hacqo Hv Hvo).
    cbn zeta. unfold release_state, release_events, free_events, link_events.
    rewrite Hw0. rewrite !decide_True by done. red_state.
    eexists _, _. split; [reflexivity|]. red_state.
    split; [by rewrite <- app_assoc|]. by rewrite lookup_delete_eq.
Qed.

Lemma unlock_follows_delete_witness :
  (∃ s', dtor 0 3 two_blocks = Ok (tt, s') ∧
     trace s' = trace two_blocks ++
       [ELock 0 4; EStoreFlag 6 false; EDec 5 0;
        EDeleteMtx 4; EDeleteCounter 5; EDeleteFlag 6; EUnlock 0 4] ∧
     mtxs s' !! 4%positive = None) ∧
  (∃ s' n, assign 0 3 1 two_blocks = Ok (tt, s') ∧
     trace s' = trace two_blocks ++
       [ELock 0 4; EDec 5 0;
        EDeleteMtx 4; EDeleteCounter 5; EDeleteFlag 6; EUnlock 0 4;
        ELock 0 1; EInc 2 n; EUnlock 0 1] ∧
     mtxs s' !! 4%positive = None).
Proof.
  assert (wf two_blocks) as Hwf by (apply wf_decide; vm_compute; reflexivity).
  destruct (unlock_follows_delete 0 3 (mkMV 4 5 6 true) Free (Held 0 1) two_blocks Hwf)
    as [Hd Ha]; try (vm_compute; reflexivity).
  split; [exact Hd|].
  apply (Ha 1%positive (mkMV 1 2 3 true) Free (Held 0 1));
    try (vm_compute; reflexivity). discriminate.
Defined.

(** C6. The destructor, under the lock of the handle's own block: stores
    [false] in the shared flag if the handle is the original, then
    decrements the counter by one, then deletes the mutex, the counter and
    the flag if and only if the counter reached 0, then unlocks. *)
Theorem destructor_sequence (t : tid) (a : obj) (h : MutexValidator)
    (m m' : recursive_mutex) (v : Z) (b : bool) (s : state) :
  wf s →
  handles s !! a = Some h →
  mtxs s !! Mtx h = Some m → acquire t m = Some m' →
  cnts s !! Counter h = Some v → flgs s !! IsValid h = Some b →
  ∃ s', dtor t a s = Ok (tt, s') ∧
    trace s' = trace s ++
      [ELock t (Mtx h)] ++
      (if IsOriginal h then [EStoreFlag (IsValid h) false] else []) ++
      [EDec (Counter h) (v - 1)] ++
      (if decide (v - 1 = 0)%Z
       then [EDeleteMtx (Mtx h); EDeleteCounter (Counter h); EDeleteFlag (IsValid h)]
       else []) ++
      [EUnlock t (Mtx h)] ∧
    handles s' = delete a (handles s) ∧
    if decide (v - 1 = 0)%Z then
      mtxs s' !! Mtx h = None ∧ cnts s' !! Counter h = None ∧
      flgs s' !! IsValid h = None
    else
      mtxs s' !! Mtx h = Some m ∧ cnts s' !! Counter h = Some (v - 1)%Z ∧
      flgs s' !! IsValid h = Some (if IsOriginal h then false else b).
Proof.
  intros Hwf Ha Hm Hacq Hv Hb.
  destruct (wf_wrap_dec s a h v Hwf Ha Hv) as [Hw Hz].
  rewrite (dtor_ok _ _ _ _ _ _ _ _ Ha Hm Hacq Hv Hb).
  unfold dtor_events, free_events. rewrite Hw.
  case_decide as Hd; eexists; (split; [reflexivity|]); red_state.
  - by rewrite !lookup_delete_eq.
  - rewrite lookup_insert_eq. repeat split; try done.
    destruct (IsOriginal h); [by rewrite lookup_insert_eq|done].
Qed.

Lemma destructor_sequence_witness :
  ∃ s', dtor 0 1 two_handles = Ok (tt, s') ∧
    trace s' = trace two_handles ++
      [ELock 0 1; EStoreFlag 3 false; EDec 2 1; EUnlock 0 1] ∧
    handles s' = delete 1%positive (handles two_handles) ∧
    mtxs s' !! 1%positive = Some Free ∧ cnts s' !! 2%positive = Some 1%Z ∧
    flgs s' !! 3%positive = Some false.
Proof.
  apply (destructor_sequence 0 1 (mkMV 1 2 3 true) Free (Held 0 1) 2 true two_handles).
  - apply wf_decide. vm_compute. reflexivity.
  - vm_compute. reflexivity.
  - vm_compute. reflexivity.
  - vm_compute. reflexivity.
  - vm_compute. reflexivity.
  - vm_compute. reflexivity.
Defined.

(** C7. Copy-construction from a handle on block X links the new handle to
    X's mutex, counter and flag, adds exactly one to X's counter, makes the
    new handle a non-original, and leaves everything else as it was: the
    copied-from handle and every other handle, all flags, all mutexes and
    all other counters.  Nothing is deleted or invalidated. *)
Theorem copy_construction (t : tid) (a other : obj) (o : MutexValidator)
    (m m' : recursive_mutex) (v : Z) (s : state) :
  wf s → room 1 s →
  handles s !! a = None → handles s !! other = Some o →
  mtxs s !! Mtx o = Some m → acquire t m = Some m' →
  cnts s !! Counter o = Some v →
  ∃ s', ctor_copy t a other s = Ok (tt, s') ∧
    handles s' = <[a := mkMV (Mtx o) (Counter o) (IsValid o) false]> (handles s) ∧
    handles s' !! other = Some o ∧
    cnts s' = <[Counter o := (v + 1)%Z]> (cnts s) ∧
    flgs s' = flgs s ∧ mtxs s' = mtxs s ∧
    trace s' = trace s ++
      [ELock t (Mtx o); EInc (Counter o) (v + 1); EUnlock t (Mtx o)].
Proof.
  intros Hwf Hroom Ha Ho Hm Hacq Hv.
  rewrite ctor_copy_link by done.
  rewrite (link_ok _ _ _ _ _ _ _ _ Ho Hm Hacq Hv).
  assert (wrap (v + 1) = (v + 1)%Z) as ->.
  { apply wrap_small. destruct (wf_counted s Hwf _ _ Hv) as [-> _].
    pose proof (count_refs_le (handles s) (Counter o)). unfold room, refCount in *. lia. }
  eexists. split; [reflexivity|]. red_state. repeat split; try done.
  rewrite lookup_insert_ne; [done|]. intros <-. by rewrite Ha in Ho.
Qed.

Lemma copy_construction_witness :
  ∃ s', ctor_copy 0 3 1 two_handles = Ok (tt, s') ∧
    handles s' = <[3%positive := mkMV 1 2 3 false]> (handles two_handles) ∧
    handles s' !! 1%positive = Some (mkMV 1 2 3 true) ∧
    cnts s' = <[2%positive := 3%Z]> (cnts two_handles) ∧
    flgs s' = flgs two_handles ∧ mtxs s' = mtxs two_handles ∧
    trace s' = trace two_handles ++ [ELock 0 1; EInc 2 3; EUnlock 0 1].
Proof.
  apply (copy_construction 0 3 1 (mkMV 1 2 3 true) Free (Held 0 1) 2 two_handles).
  - apply wf_decide. vm_compute. reflexivity.
  - vm_compute. reflexivity.
  - vm_compute. reflexivity.
  - vm_compute. reflexivity.
  - vm_compute. reflexivity.
  - vm_compute. reflexivity.
  - vm_compute. reflexivity.
Defined.

(** C8. The demonstration program prints [1] and then [0], each followed by
    a newline, and returns 0.  (The destructor of [mwv] that runs when
    [main] is left takes the counter to 0; what it logs is the subject of
    [unlock_follows_delete].) *)
Theorem main_prints_1_then_0 :
  output (main init) = Some ("1" +:+ endl +:+ "0" +:+ endl) ∧
  exit_code (main init) = Some 0%Z.
Proof. split; vm_compute; reflexivity. Qed.

(** C9. [TryLock] never waits.  In every state its outcome is a value or
    undefined behaviour, never [Blocks].  On a live handle whose mutex is
    held by another thread it returns [false] and leaves every store as it
    was, where [Lock] would have to wait; on a live handle whose mutex is
    free it returns [true] and the calling thread holds the mutex. *)
Theorem TryLock_never_blocks (t : tid) (a : obj) (s : state) :
  TryLock t a s ≠ Blocks ∧
  (∀ h t' k,
     handles s !! a = Some h → mtxs s !! Mtx h = Some (Held t' k) → t' ≠ t →
     TryLock t a s = Ok (false, log (ETryLock t (Mtx h) false) s) ∧
     Lock t a s = Blocks) ∧
  (∀ h,
     handles s !! a = Some h → mtxs s !! Mtx h = Some Free →
     ∃ s', TryLock t a s = Ok (true, s') ∧
       mtxs s' = <[Mtx h := Held t 1]> (mtxs s) ∧
       handles s' = handles s ∧ cnts s' = cnts s ∧ flgs s' = flgs s).
Proof.
  split; [|split].
  - unfold_ops. destruct (handles s !! a) as [h|]; [red_state|done].
    destruct (mtxs s !! Mtx h) as [m|]; [red_state|done].
    by destruct (acquire t m).
  - intros h t' k Ha Hm Hne.
    rewrite (TryLock_eq _ _ _ _ _ Ha Hm). unfold Lock. exec.
    unfold acquire. by rewrite decide_False.
  - intros h Ha Hm. rewrite (TryLock_eq _ _ _ _ _ Ha Hm). cbn [acquire].
    eexists. split; [reflexivity|]. by red_state.
Qed.

Lemma TryLock_never_blocks_witness :
  (TryLock 0 1 held_elsewhere
     = Ok (false, log (ETryLock 0 1 false) held_elsewhere) ∧
   Lock 0 1 held_elsewhere = Blocks) ∧
  (∃ s', TryLock 0 1 two_handles = Ok (true, s') ∧
     mtxs s' = <[1%positive := Held 0 1]> (mtxs two_handles) ∧
     handles s' = handles two_handles ∧ cnts s' = cnts two_handles ∧
     flgs s' = flgs two_handles).
Proof.
  split.
  - apply (proj1 (proj2 (TryLock_never_blocks 0 1 held_elsewhere))
             (mkMV 1 2 3 true) 1 1%positive); [by vm_compute..|discriminate].
  - apply (proj2 (proj2 (TryLock_never_blocks 0 1 two_handles)) (mkMV 1 2 3 true));
      by vm_compute.
Defined.

(** C10. Assigning [h1 = h2] for two distinct live handles that are already
    on the same block decrements and then increments that block's counter,
    so every counter is as before; nothing is deleted, no flag and no mutex
    changes, and [h1] ends up a non-original with the same three pointers. *)
Theorem assign_within_block (t : tid) (a other : obj) (h o : MutexValidator)
    (m m' : recursive_mutex) (v : Z) (s : state) :
  wf s → a ≠ other →
  handles s !! a = Some h → handles s !! other = Some o →
  Counter h = Counter o →
  mtxs s !! Mtx h = Some m → acquire t m = Some m' →
  cnts s !! Counter h = Some v →
  (2 ≤ v)%Z ∧
  ∃ s', assign t a other s = Ok (tt, s') ∧
    handles s' = <[a := mkMV (Mtx h) (Counter h) (IsValid h) false]> (handles s) ∧
    cnts s' = cnts s ∧ flgs s' = flgs s ∧ mtxs s' = mtxs s ∧
    trace s' = trace s ++
      [ELock t (Mtx h); EDec (Counter h) (v - 1); EUnlock t (Mtx h);
       ELock t (Mtx h); EInc (Counter h) v; EUnlock t (Mtx h)].
Proof.
  intros Hwf Hne Ha Ho Hc Hm Hacq Hv.
  destruct (wf_in_sync s Hwf a h other o Ha Ho) as [Hsm Hsf].
  assert (Mtx h = Mtx o) as Em by (by apply Hsm).
  assert (IsValid h = IsValid o) as Ef by (by apply Hsf).
  assert (2 ≤ v)%Z as Hv2.
  { by apply (shared_block_count s a h other o v). }
  split; [done|].
  destruct (wf_wrap_dec s a h v Hwf Ha Hv) as [Hw Hz].
  assert (mtxs s !! Mtx o = Some m) as Hmo by (by rewrite <- Em).
  assert (cnts s !! Counter o = Some v) as Hvo by (by rewrite <- Hc).
  rewrite (assign_run _ _ _ _ _ _ _ _ _ _ _ _ Hwf Hne Ha Ho Hm Hacq Hmo Hacq Hv Hvo).
  cbn zeta. unfold release_state, release_events, free_events, link_events, copy_of.
  rewrite Hw. rewrite <- Em, <- Hc, <- Ef.
  rewrite (decide_True (P := Counter h = Counter h)) by done.
  rewrite (decide_False (P := (v - 1)%Z = 0%Z)) by lia. red_state.
  eexists. split; [reflexivity|]. red_state.
  replace (v - 1 + 1)%Z with v by lia.
  repeat split; try done.
  - rewrite insert_insert_eq. by apply insert_id.
  - case_decide; [lia|]. by rewrite <- app_assoc.
Qed.

Lemma assign_within_block_witness :
  (2 ≤ 2)%Z ∧
  ∃ s', assign 0 1 2 two_handles = Ok (tt, s') ∧
    handles s' = <[1%positive := mkMV 1 2 3 false]> (handles two_handles) ∧
    cnts s' = cnts two_handles ∧ flgs s' = flgs two_handles ∧
    mtxs s' = mtxs two_handles ∧
    trace s' = trace two_handles ++
      [ELock 0 1; EDec 2 1; EUnlock 0 1; ELock 0 1; EInc 2 2; EUnlock 0 1].
Proof.
  apply (assign_within_block 0 1 2 (mkMV 1 2 3 true) (mkMV 1 2 3 false)
           Free (Held 0 1) 2 two_handles).
  - apply wf_decide. vm_compute. reflexivity.
  - discriminate.
  - vm_compute. reflexivity.
  - vm_compute. reflexivity.
  - reflexivity.
  - vm_compute. reflexivity.
  - vm_compute. reflexivity.
  - vm_compute. reflexivity.
Defined.

(** * Further properties of the code *)

(** ** Reading the flag *)

(** X3. [GetIsValid] only reads, and as long as the original of a block is
    alive every handle of that block, the original included, reads [true]. *)
Theorem valid_while_original_alive (a c : obj) (h hc : MutexValidator) (s : state) :
  wf s →
  handles s !! a = Some h → IsOriginal h = true →
  handles s !! c = Some hc → Counter hc = Counter h →
  GetIsValid c s = Ok (true, s).
Proof.
  intros Hwf Ha Hor Hc Hcnt.
  destruct (wf_linked s Hwf a h Ha) as (_ & _ & _ & Hb).
  destruct (wf_in_sync s Hwf c hc a h Hc Ha) as [_ Hf].
  apply (GetIsValid_ok c hc true s Hc).
  rewrite (proj2 Hf Hcnt). by apply Hb.
Qed.

Lemma valid_while_original_alive_witness :
  GetIsValid 2 two_handles = Ok (true, two_handles).
Proof.
  apply (valid_while_original_alive 1 2 (mkMV 1 2 3 true) (mkMV 1 2 3 false));
    [apply wf_decide|..]; by vm_compute.
Defined.

(** ** Round trips *)

(** X4. Copy-constructing a handle and destroying the copy again leaves
    the handles, the mutexes, the counters and the flags exactly as they
    were; only the log has grown. *)
Theorem copy_then_destroy (t : tid) (a other : obj) (o : MutexValidator)
    (m m' : recursive_mutex) (s : state) :
  wf s → room 1 s →
  handles s !! a = None → handles s !! other = Some o →
  mtxs s !! Mtx o = Some m → acquire t m = Some m' →
  ∃ s1 s2,
    ctor_copy t a other s = Ok (tt, s1) ∧ dtor t a s1 = Ok (tt, s2) ∧
    handles s2 = handles s ∧ mtxs s2 = mtxs s ∧ cnts s2 = cnts s ∧
    flgs s2 = flgs s ∧ next s2 = next s.
Proof.
  intros Hwf Hroom Ha Ho Hm Hacq.
  destruct (wf_linked s Hwf other o Ho) as (_ & [v Hv] & [b Hb] & _).
  destruct (wf_counted s Hwf _ _ Hv) as [Hcnt Hpos].
  assert (wrap (v + 1) = (v + 1)%Z) as Hw.
  { apply wrap_small. pose proof (count_refs_le (handles s) (Counter o)).
    unfold room, refCount in *. lia. }
  assert (wrap (v + 1 - 1) = v) as Hw'.
  { replace (v + 1 - 1)%Z with v by lia. apply wrap_small.
    pose proof (wf_refCount_bound s Hwf (Counter o)). lia. }
  rewrite ctor_copy_link by done.
  rewrite (link_ok _ _ _ _ _ _ _ _ Ho Hm Hacq Hv). rewrite Hw.
  eexists _, _. split; [reflexivity|].
  erewrite (dtor_ok t a (copy_of o) m m' (v + 1) b); red_state;
    [|apply lookup_insert_eq|done|done|apply lookup_insert_eq|done].
  rewrite Hw'. rewrite decide_False by lia.
  split; [reflexivity|]. red_state. cbn [copy_of Counter IsOriginal].
  repeat split.
  - rewrite delete_insert_eq. by apply delete_id.
  - rewrite insert_insert_eq. by apply insert_id.
Qed.

Lemma copy_then_destroy_witness :
  ∃ s1 s2,
    ctor_copy 0 3 2 two_handles = Ok (tt, s1) ∧ dtor 0 3 s1 = Ok (tt, s2) ∧
    handles s2 = handles two_handles ∧ mtxs s2 = mtxs two_handles ∧
    cnts s2 = cnts two_handles ∧ flgs s2 = flgs two_handles ∧
    next s2 = next two_handles.
Proof.
  apply (copy_then_destroy 0 3 2 (mkMV 1 2 3 false) Free (Held 0 1));
    [apply wf_decide|..]; by vm_compute.
Defined.

(** X5. [Lock] followed by [Unlock] on the same handle by the same thread
    succeeds whenever the mutex is free or already held by that thread (the
    lock is re-entrant), the thread holds the mutex in between, and
    afterwards every store is as before; the log gains the lock and the
    unlock. *)
Theorem lock_unlock_round_trip (t : tid) (a : obj) (h : MutexValidator)
    (m m' : recursive_mutex) (s : state) :
  handles s !! a = Some h →
  mtxs s !! Mtx h = Some m → acquire t m = Some m' →
  ∃ s1 s2 k,
    Lock t a s = Ok (tt, s1) ∧ mtxs s1 !! Mtx h = Some (Held t k) ∧
    Unlock t a s1 = Ok (tt, s2) ∧
    handles s2 = handles s ∧ mtxs s2 = mtxs s ∧ cnts s2 = cnts s ∧
    flgs s2 = flgs s ∧
    trace s2 = trace s ++ [ELock t (Mtx h); EUnlock t (Mtx h)].
Proof.
  intros Ha Hm Hacq. pose proof (release_acquire _ _ _ Hacq) as Hrel.
  assert (∃ k, m' = Held t k) as [k ->].
  { destruct m as [|t' k']; simpl in Hacq.
    - injection Hacq as <-. by eexists.
    - case_decide; [|done]. injection Hacq as <-. by eexists. }
  rewrite (Lock_ok _ _ _ _ _ _ Ha Hm Hacq).
  eexists _, _, k. split; [reflexivity|]. red_state.
  split; [apply lookup_insert_eq|].
  erewrite (Unlock_ok t a h (Held t k) m); red_state;
    [|done|apply lookup_insert_eq|done].
  split; [reflexivity|]. red_state. repeat split.
  - rewrite insert_insert_eq. by apply insert_id.
  - by rewrite <- app_assoc.
Qed.

Lemma lock_unlock_round_trip_witness :
  ∃ s1 s2 k,
    Lock 1 1 held_elsewhere = Ok (tt, s1) ∧
    mtxs s1 !! 1%positive = Some (Held 1 k) ∧
    Unlock 1 1 s1 = Ok (tt, s2) ∧
    handles s2 = handles held_elsewhere ∧ mtxs s2 = mtxs held_elsewhere ∧
    cnts s2 = cnts held_elsewhere ∧ flgs s2 = flgs held_elsewhere ∧
    trace s2 = trace held_elsewhere ++ [ELock 1 1; EUnlock 1 1].
Proof.
  apply (lock_unlock_round_trip 1 1 (mkMV 1 2 3 true) (Held 1 1) (Held 1 2));
    by vm_compute.
Defined.

(** ** Construction and assignment *)

(** X1. The default constructor takes no lock and builds a block of its
    own: a free mutex, a counter at 1 and a flag set to [true], at three
    addresses no existing handle points at; the new handle is an original,
    and the cells of every existing handle keep their contents. *)
Theorem default_construction_fresh_block (a : obj) (s : state) :
  wf s → handles s !! a = None →
  ∃ s' h,
    ctor_default a s = Ok (tt, s') ∧
    handles s' = <[a := h]> (handles s) ∧ IsOriginal h = true ∧
    mtxs s' !! Mtx h = Some Free ∧ cnts s' !! Counter h = Some 1%Z ∧
    flgs s' !! IsValid h = Some true ∧
    trace s' = trace s ++
      [ENewMtx (Mtx h); ENewCounter (Counter h) 1; ENewFlag (IsValid h) true] ∧
    ∀ a' h', handles s !! a' = Some h' →
      Mtx h' ≠ Mtx h ∧ Counter h' ≠ Counter h ∧ IsValid h' ≠ IsValid h ∧
      mtxs s' !! Mtx h' = mtxs s !! Mtx h' ∧
      cnts s' !! Counter h' = cnts s !! Counter h' ∧
      flgs s' !! IsValid h' = flgs s !! IsValid h'.
Proof.
  intros Hwf Ha. rewrite ctor_default_ok by done.
  eexists _, (mkMV (next s) (Pos.succ (next s)) (Pos.succ (Pos.succ (next s))) true).
  split; [reflexivity|]. red_state. cbn [Mtx Counter IsValid IsOriginal].
  rewrite !lookup_insert_eq. do 6 (split; [done|]).
  intros a' h' Ha'.
  destruct (wf_linked s Hwf a' h' Ha') as (H1 & H2 & H3 & _).
  apply (wf_below_mtx s Hwf) in H1.
  apply (wf_below_cnt s Hwf) in H2.
  apply (wf_below_flg s Hwf) in H3.
  rewrite !lookup_insert_ne by lia. repeat split; lia.
Qed.

Lemma default_construction_fresh_block_witness :
  ∃ s' h,
    ctor_default 3 two_handles = Ok (tt, s') ∧
    handles s' = <[3%positive := h]> (handles two_handles) ∧ IsOriginal h = true ∧
    mtxs s' !! Mtx h = Some Free ∧ cnts s' !! Counter h = Some 1%Z ∧
    flgs s' !! IsValid h = Some true ∧
    trace s' = trace two_handles ++
      [ENewMtx (Mtx h); ENewCounter (Counter h) 1; ENewFlag (IsValid h) true] ∧
    ∀ a' h', handles two_handles !! a' = Some h' →
      Mtx h' ≠ Mtx h ∧ Counter h' ≠ Counter h ∧ IsValid h' ≠ IsValid h ∧
      mtxs s' !! Mtx h' = mtxs two_handles !! Mtx h' ∧
      cnts s' !! Counter h' = cnts two_handles !! Counter h' ∧
      flgs s' !! IsValid h' = flgs two_handles !! IsValid h'.
Proof.
  apply (default_construction_fresh_block 3 two_handles);
    [apply wf_decide|]; by vm_compute.
Defined.

(** X6. Assigning from a handle on another block moves one reference: the
    target's old block loses one (and is deleted if that was its last
    handle), the block of [other] gains one, the target now carries the
    pointers of [other] as a non-original, and [other] itself, its flag and
    its mutex are as before. *)
Theorem assign_moves_reference (t : tid) (a other : obj) (h o : MutexValidator)
    (m m' mo mo' : recursive_mutex) (v vo : Z) (s : state) :
  wf s → a ≠ other →
  handles s !! a = Some h → handles s !! other = Some o →
  Counter o ≠ Counter h →
  mtxs s !! Mtx h = Some m → acquire t m = Some m' →
  mtxs s !! Mtx o = Some mo → acquire t mo = Some mo' →
  cnts s !! Counter h = Some v → cnts s !! Counter o = Some vo →
  ∃ s',
    assign t a other s = Ok (tt, s') ∧
    handles s' = <[a := mkMV (Mtx o) (Counter o) (IsValid o) false]> (handles s) ∧
    handles s' !! other = Some o ∧
    cnts s' !! Counter o = Some (vo + 1)%Z ∧
    mtxs s' !! Mtx o = Some mo ∧
    flgs s' !! IsValid o = flgs s !! IsValid o ∧
    if decide (v = 1%Z) then
      mtxs s' !! Mtx h = None ∧ cnts s' !! Counter h = None ∧
      flgs s' !! IsValid h = None
    else
      mtxs s' !! Mtx h = Some m ∧ cnts s' !! Counter h = Some (v - 1)%Z ∧
      flgs s' !! IsValid h = flgs s !! IsValid h.
Proof.
  intros Hwf Hne Ha Ho Hc Hm Hacq Hmo Hacqo Hv Hvo.
  destruct (wf_wrap_dec s a h v Hwf Ha Hv) as [Hw Hz].
  destruct (wf_in_sync s Hwf other o a h Ho Ha) as [Hsm Hsf].
  assert (Mtx o ≠ Mtx h) as Hcm by (by intros ?%Hsm).
  assert (IsValid o ≠ IsValid h) as Hcf by (by intros ?%Hsf).
  rewrite (assign_run _ _ _ _ _ _ _ _ _ _ _ _ Hwf Hne Ha Ho Hm Hacq Hmo Hacqo Hv Hvo).
  cbn zeta. rewrite (decide_False (P := Counter o = Counter h)) by done.
  eexists. split; [reflexivity|]. red_state.
  split; [done|]. split; [by rewrite lookup_insert_ne|].
  split; [apply lookup_insert_eq|].
  unfold release_state. rewrite Hw.
  case_decide as Hd; red_state.
  - rewrite decide_True by lia.
    rewrite !lookup_delete_eq, !lookup_delete_ne by done.
    rewrite lookup_insert_ne, lookup_delete_eq by done. done.
  - rewrite decide_False by lia.
    rewrite lookup_insert_ne, lookup_insert_eq by done. done.
Qed.

Lemma assign_moves_reference_witness :
  ∃ s',
    assign 0 2 3 two_blocks = Ok (tt, s') ∧
    handles s' = <[2%positive := mkMV 4 5 6 false]> (handles two_blocks) ∧
    handles s' !! 3%positive = Some (mkMV 4 5 6 true) ∧
    cnts s' !! 5%positive = Some 2%Z ∧
    mtxs s' !! 4%positive = Some Free ∧
    flgs s' !! 6%positive = flgs two_blocks !! 6%positive ∧
    mtxs s' !! 1%positive = Some Free ∧ cnts s' !! 2%positive = Some 1%Z ∧
    flgs s' !! 3%positive = flgs two_blocks !! 3%positive.
Proof.
  apply (assign_moves_reference 0 2 3 (mkMV 1 2 3 false) (mkMV 4 5 6 true)
           Free (Held 0 1) Free (Held 0 1) 2 1 two_blocks);
    [apply wf_decide; by vm_compute|discriminate|..]; by vm_compute.
Defined.

(** ** What an operation does to the handles *)

(** X9. After any operation a live handle is one of three things: the
    handle it was before, unchanged; the object the default constructor has
    just built, which is an original; or the target of the copy
    construction or assignment just performed, which carries the pointers
    of [other] and is not an original.  So no operation modifies a handle
    other than its own [this], and only default construction makes an
    original. *)
Theorem handles_change_only_at_this (o : op) (s : state) (r : unit) (s' : state)
    (a : obj) (h' : MutexValidator) :
  wf s → step o s = Ok (r, s') → handles s' !! a = Some h' →
  handles s !! a = Some h' ∨
  (o = ONew a ∧ handles s !! a = None ∧ IsOriginal h' = true) ∨
  (∃ t other ho,
     (o = OCopy t a other ∨ o = OAssign t a other) ∧
     handles s !! other = Some ho ∧
     h' = mkMV (Mtx ho) (Counter ho) (IsValid ho) false).
Proof.
  intros Hwf. destruct o as [a0|t a0 other|t a0 other|t a0|t a0|t a0|t a0|a0]; simpl.
  - destruct (handles s !! a0) as [h|] eqn:Ha.
    { unfold_ops. by rewrite Ha. }
    rewrite ctor_default_ok by done. intros [= _ <-]. red_state.
    rewrite lookup_insert_Some. intros [[<- <-]|[_ Hl]]; [|by left].
    right. left. done.
  - destruct (handles s !! a0) as [h|] eqn:Ha.
    { unfold_ops. by rewrite Ha. }
    rewrite ctor_copy_link by done. intros H.
    destruct (link_inv _ _ _ _ _ H) as (ho & m & m' & v & Ho & Hm & Hacq & Hv).
    rewrite (link_ok _ _ _ _ _ _ _ _ Ho Hm Hacq Hv) in H. injection H as _ <-.
    red_state. rewrite lookup_insert_Some. intros [[<- <-]|[_ Hl]]; [|by left].
    right. right. exists t, other, ho. auto.
  - intros H. destruct (decide (a0 = other)) as [->|Hne].
    { rewrite assign_self in H. injection H as _ <-. by left. }
    destruct (assign_inv _ _ _ _ _ H Hne) as (h & m & m' & v & Ha & Hm & Hacq & Hv).
    destruct (wf_linked s Hwf a0 h Ha) as (_ & _ & [b Hb] & _).
    rewrite (assign_split _ _ _ _ _ _ _ _ _ Hne Ha Hm Hacq Hv Hb) in H.
    destruct (link_inv _ _ _ _ _ H) as (ho & mo & mo' & vo & Ho & Hmo & Hacqo & Hvo).
    rewrite (link_ok _ _ _ _ _ _ _ _ Ho Hmo Hacqo Hvo) in H. injection H as _ <-.
    rewrite release_state_handles in Ho.
    red_state. rewrite release_state_handles.
    rewrite lookup_insert_Some. intros [[<- <-]|[_ Hl]]; [|by left].
    right. right. exists t, other, ho. auto.
  - intros H.
    destruct (dtor_inv _ _ _ _ H) as (h & m & m' & v & Ha & Hm & Hacq & Hv).
    destruct (wf_linked s Hwf a0 h Ha) as (_ & _ & [b Hb] & _).
    rewrite (dtor_ok _ _ _ _ _ _ _ _ Ha Hm Hacq Hv Hb) in H. injection H as _ <-.
    case_decide; red_state; rewrite lookup_delete_Some; intros [_ Hl]; by left.
  - unfold_ops.
    destruct (handles s !! a0) as [h|]; [red_state|done].
    destruct (mtxs s !! Mtx h) as [m|]; [red_state|done].
    destruct (acquire t m) as [m'|]; [red_state|done].
    intros [= _ <-]. red_state. by left.
  - unfold_ops.
    destruct (handles s !! a0) as [h|]; [red_state|done].
    destruct (mtxs s !! Mtx h) as [m|]; [red_state|done].
    destruct (acquire t m) as [m'|]; red_state; intros [= _ <-]; red_state; by left.
  - unfold_ops.
    destruct (handles s !! a0) as [h|]; [red_state|done].
    destruct (mtxs s !! Mtx h) as [m|]; red_state.
    + destruct (release t m) as [m'|]; [red_state|done].
      intros [= _ <-]. red_state. by left.
    + intros [= _ <-]. red_state. by left.
  - unfold_ops.
    destruct (handles s !! a0) as [h|]; [red_state|done].
    destruct (flgs s !! IsValid h) as [b|]; [red_state|done].
    intros [= _ <-]. by left.
Qed.

Lemma handles_change_only_at_this_witness :
  handles two_blocks !! 1%positive = Some (mkMV 4 5 6 false) ∨
  (OAssign 0 1 3 = ONew 1 ∧ handles two_blocks !! 1%positive = None ∧
   IsOriginal (mkMV 4 5 6 false) = true) ∨
  (∃ t other ho,
     (OAssign 0 1 3 = OCopy t 1 other ∨ OAssign 0 1 3 = OAssign t 1 other) ∧
     handles two_blocks !! other = Some ho ∧
     mkMV 4 5 6 false = mkMV (Mtx ho) (Counter ho) (IsValid ho) false).
Proof.
  apply (handles_change_only_at_this (OAssign 0 1 3) two_blocks tt
           (state_after [ONew 1; OCopy 0 2 1; ONew 3; OAssign 0 1 3]));
    [apply wf_decide|..]; by vm_compute.
Defined.

(** X8. The pointer invariants hold along every run: in the state a run
    from a well-formed state ends in, the three pointers of every live
    handle point at live cells, two handles that share one of the three
    pointers share all three, and a block has at most one original. *)
Theorem pointers_stay_sound (ops : list op) (s : state) (r : unit) (s' : state) :
  wf s → room (length ops) s → run ops s = Ok (r, s') →
  ∀ a1 h1 a2 h2,
    handles s' !! a1 = Some h1 → handles s' !! a2 = Some h2 →
    (is_Some (mtxs s' !! Mtx h1) ∧ is_Some (cnts s' !! Counter h1) ∧
     is_Some (flgs s' !! IsValid h1)) ∧
    (Mtx h1 = Mtx h2 ↔ Counter h1 = Counter h2) ∧
    (IsValid h1 = IsValid h2 ↔ Counter h1 = Counter h2) ∧
    (Counter h1 = Counter h2 → IsOriginal h1 = true → IsOriginal h2 = true →
     a1 = a2).
Proof.
  intros Hwf Hroom Hrun a1 h1 a2 h2 H1 H2.
  pose proof (run_wf ops s r s' Hwf Hroom Hrun) as Hwf'.
  destruct (wf_linked s' Hwf' a1 h1 H1) as (L1 & L2 & L3 & _).
  destruct (wf_in_sync s' Hwf' a1 h1 a2 h2 H1 H2) as [S1 S2].
  split; [done|]. split; [done|]. split; [done|].
  exact (wf_one_original s' Hwf' a1 h1 a2 h2 H1 H2).
Qed.

Lemma pointers_stay_sound_witness :
  let h2 := mkMV 1 2 3 false in
  let h3 := mkMV 1 2 3 false in
  (is_Some (mtxs three_handles !! Mtx h2) ∧
   is_Some (cnts three_handles !! Counter h2) ∧
   is_Some (flgs three_handles !! IsValid h2)) ∧
  (Mtx h2 = Mtx h3 ↔ Counter h2 = Counter h3) ∧
  (IsValid h2 = IsValid h3 ↔ Counter h2 = Counter h3) ∧
  (Counter h2 = Counter h3 → IsOriginal h2 = true → IsOriginal h3 = true →
   2%positive = 3%positive).
Proof.
  apply (pointers_stay_sound [ONew 1; OCopy 0 2 1; OCopy 0 3 2] init tt three_handles);
    [apply wf_decide|..]; by vm_compute.
Defined.

(** ** Operations on live handles never go wrong *)

Lemma bind_Ok {A B} (c : M A) (f : A → M B) s x s1 :
  c s = Ok (x, s1) → (c ≫= f) s = f x s1.
Proof. intros H. unfold mbind, M_bind. by rewrite H. Qed.

Lemma link_blocks t a other o m s :
  handles s !! other = Some o → mtxs s !! Mtx o = Some m → acquire t m = None →
  link t a other s = Blocks.
Proof. intros Ho Hm Hacq. unfold link. by exec. Qed.

Lemma dtor_blocks t a h m s :
  handles s !! a = Some h → mtxs s !! Mtx h = Some m → acquire t m = None →
  dtor t a s = Blocks.
Proof. intros Ha Hm Hacq. by exec. Qed.

Lemma assign_blocks t a other h m s :
  a ≠ other →
  handles s !! a = Some h → mtxs s !! Mtx h = Some m → acquire t m = None →
  assign t a other s = Blocks.
Proof.
  intros Hne Ha Hm Hacq. unfold assign. rewrite decide_True by done. by exec.
Qed.

Lemma Lock_blocks t a h m s :
  handles s !! a = Some h → mtxs s !! Mtx h = Some m → acquire t m = None →
  Lock t a s = Blocks.
Proof. intros Ha Hm Hacq. by exec. Qed.

Lemma release_state_other t a other h o v mo vo s :
  wf s → a ≠ other →
  handles s !! a = Some h → handles s !! other = Some o →
  cnts s !! Counter h = Some v →
  mtxs s !! Mtx o = Some mo → cnts s !! Counter o = Some vo →
  handles (release_state t h v s) !! other = Some o ∧
  mtxs (release_state t h v s) !! Mtx o = Some mo ∧
  is_Some (cnts (release_state t h v s) !! Counter o).
Proof.
  intros Hwf Hne Ha Ho Hv Hmo Hvo.
  destruct (wf_wrap_dec s a h v Hwf Ha Hv) as [Hw Hz].
  split; [by rewrite release_state_handles|].
  unfold release_state. case_decide as Hd; red_state.
  - apply Hz in Hd. subst v.
    destruct (sole_owner s a h other o Hwf Ha Hv (not_eq_sym Hne) Ho) as (? & ? & _).
    by rewrite !lookup_delete_ne.
  - split; [done|]. rewrite lookup_insert_is_Some.
    destruct (decide (Counter h = Counter o)); eauto.
Qed.

(** X2. In a well-formed state, an operation whose objects are alive (and,
    for [Unlock], whose thread holds the mutex) never has the undefined
    outcome: it reads and writes no deleted counter or flag, locks no
    deleted mutex and deletes nothing twice.  It either completes or waits
    for a mutex, and it completes whenever no mutex is held by another
    thread. *)
Theorem live_operations_are_defined (o : op) (s : state) :
  wf s → ready o s →
  step o s ≠ Undefined ∧
  (uncontended (thread_of o) s → ∃ s', step o s = Ok (tt, s')).
Proof.
  intros Hwf Hready.
  destruct o as [a|t a other|t a other|t a|t a|t a|t a|a]; simpl in *.
  - rewrite ctor_default_ok by done. split; [done|eauto].
  - destruct Hready as [Ha [o Ho]]. rewrite ctor_copy_link by done.
    destruct (wf_linked s Hwf other o Ho) as ([m Hm] & [v Hv] & _).
    destruct (acquire t m) as [m'|] eqn:Hacq.
    + rewrite (link_ok _ _ _ _ _ _ _ _ Ho Hm Hacq Hv). split; [done|eauto].
    + rewrite (link_blocks _ _ _ _ _ _ Ho Hm Hacq). split; [done|].
      intros Hun. destruct (Hun _ _ Hm) as [? Hs]. congruence.
  - destruct Hready as [[h Ha] [o Ho]].
    destruct (decide (a = other)) as [->|Hne].
    { rewrite assign_self. split; [done|eauto]. }
    destruct (wf_linked s Hwf a h Ha) as ([m Hm] & [v Hv] & [b Hb] & _).
    destruct (wf_linked s Hwf other o Ho) as ([mo Hmo] & [vo Hvo] & _).
    destruct (acquire t m) as [m'|] eqn:Hacq.
    + rewrite (assign_split _ _ _ _ _ _ _ _ _ Hne Ha Hm Hacq Hv Hb).
      destruct (release_state_other t a other h o v mo vo s Hwf Hne Ha Ho Hv Hmo Hvo)
        as (Ho1 & Hmo1 & [vo1 Hvo1]).
      destruct (acquire t mo) as [mo'|] eqn:Hacqo.
      * rewrite (link_ok _ _ _ _ _ _ _ _ Ho1 Hmo1 Hacqo Hvo1). split; [done|eauto].
      * rewrite (link_blocks _ _ _ _ _ _ Ho1 Hmo1 Hacqo). split; [done|].
        intros Hun. destruct (Hun _ _ Hmo) as [? Hs]. congruence.
    + rewrite (assign_blocks _ _ _ _ _ _ Hne Ha Hm Hacq). split; [done|].
      intros Hun. destruct (Hun _ _ Hm) as [? Hs]. congruence.
  - destruct Hready as [h Ha].
    destruct (wf_linked s Hwf a h Ha) as ([m Hm] & [v Hv] & [b Hb] & _).
    destruct (acquire t m) as [m'|] eqn:Hacq.
    + rewrite (dtor_ok _ _ _ _ _ _ _ _ Ha Hm Hacq Hv Hb). split; [done|eauto].
    + rewrite (dtor_blocks _ _ _ _ _ Ha Hm Hacq). split; [done|].
      intros Hun. destruct (Hun _ _ Hm) as [? Hs]. congruence.
  - destruct Hready as [h Ha].
    destruct (wf_linked s Hwf a h Ha) as ([m Hm] & _).
    destruct (acquire t m) as [m'|] eqn:Hacq.
    + rewrite (Lock_ok _ _ _ _ _ _ Ha Hm Hacq). split; [done|eauto].
    + rewrite (Lock_blocks _ _ _ _ _ Ha Hm Hacq). split; [done|].
      intros Hun. destruct (Hun _ _ Hm) as [? Hs]. congruence.
  - destruct Hready as [h Ha].
    destruct (wf_linked s Hwf a h Ha) as ([m Hm] & _).
    pose proof (TryLock_eq t a h m s Ha Hm) as E.
    destruct (acquire t m); rewrite (bind_Ok _ _ _ _ _ E); (split; [done|eauto]).
  - destruct Hready as (h & k & Ha & Hm).
    assert (is_Some (release t (Held t k))) as [m' Hrel].
    { simpl. rewrite decide_True by done. eauto. }
    rewrite (Unlock_ok _ _ _ _ _ _ Ha Hm Hrel). split; [done|eauto].
  - destruct Hready as [h Ha].
    destruct (wf_linked s Hwf a h Ha) as (_ & _ & [b Hb] & _).
    rewrite (bind_Ok _ _ _ _ _ (GetIsValid_ok _ _ _ _ Ha Hb)).
    split; [done|eauto].
Qed.

Lemma live_operations_are_defined_witness :
  step (OAssign 0 1 3) two_blocks ≠ Undefined ∧
  (uncontended 0 two_blocks → ∃ s', step (OAssign 0 1 3) two_blocks = Ok (tt, s')).
Proof.
  apply (live_operations_are_defined (OAssign 0 1 3) two_blocks).
  - apply wf_decide. by vm_compute.
  - split; eexists; by vm_compute.
Defined.

(** ** Nothing is leaked *)

Lemma other_handle_on_block s a h v :
  wf s → handles s !! a = Some h → cnts s !! Counter h = Some v → v ≠ 1%Z →
  ∃ a' h', a' ≠ a ∧ handles s !! a' = Some h' ∧
    Mtx h' = Mtx h ∧ Counter h' = Counter h ∧ IsValid h' = IsValid h.
Proof.
  intros Hwf Ha Hv Hv1.
  destruct (wf_counted s Hwf _ _ Hv) as [Hcnt Hpos].
  pose proof (count_refs_delete (handles s) a h (Counter h) Ha) as Hd.
  rewrite decide_True in Hd by done. unfold refCount in Hcnt.
  assert (count_refs (Counter h) (delete a (handles s)) ≠ 0) as Hne by lia.
  apply map_size_ne_0_lookup in Hne as [a' [h' Hl]].
  apply map_lookup_filter_Some in Hl as [Hl Hc]. simpl in Hc.
  apply lookup_delete_Some in Hl as [Hna Hl].
  destruct (wf_in_sync s Hwf a' h' a h Hl Ha) as [Hm Hf].
  exists a', h'. split; [by apply not_eq_sym|]. split; [done|].
  split; [by apply Hm|]. split; [done|by apply Hf].
Qed.

Lemma owned_grow s s' a x :
  owned s → handles s !! a = None →
  handles s' = <[a := x]> (handles s) →
  (∀ p, is_Some (mtxs s' !! p) → p = Mtx x ∨ is_Some (mtxs s !! p)) →
  (∀ p, is_Some (cnts s' !! p) → p = Counter x ∨ is_Some (cnts s !! p)) →
  (∀ p, is_Some (flgs s' !! p) → p = IsValid x ∨ is_Some (flgs s !! p)) →
  owned s'.
Proof.
  intros (Om & Oc & Of) Ha Eh Em Ec Ef.
  assert (∀ a0 h0, handles s !! a0 = Some h0 → handles s' !! a0 = Some h0) as Hkeep.
  { intros a0 h0 H0. rewrite Eh, lookup_insert_ne; [done|]. intros <-. congruence. }
  assert (handles s' !! a = Some x) as Hx by (rewrite Eh; apply lookup_insert_eq).
  split; [|split]; intros p Hp.
  - destruct (Em p Hp) as [->|Hold]; [by exists a, x|].
    destruct (Om p Hold) as (a0 & h0 & H0 & E). exists a0, h0. auto.
  - destruct (Ec p Hp) as [->|Hold]; [by exists a, x|].
    destruct (Oc p Hold) as (a0 & h0 & H0 & E). exists a0, h0. auto.
  - destruct (Ef p Hp) as [->|Hold]; [by exists a, x|].
    destruct (Of p Hold) as (a0 & h0 & H0 & E). exists a0, h0. auto.
Qed.

Lemma owned_detach s s' a h v :
  wf s → owned s →
  handles s !! a = Some h → cnts s !! Counter h = Some v → v ≠ 1%Z →
  handles s' = delete a (handles s) →
  same_dom (mtxs s') (mtxs s) → same_dom (cnts s') (cnts s) →
  same_dom (flgs s') (flgs s) →
  owned s'.
Proof.
  intros Hwf (Om & Oc & Of) Ha Hv Hv1 Eh Em Ec Ef.
  destruct (other_handle_on_block s a h v Hwf Ha Hv Hv1)
    as (a' & h' & Hne & Ha' & E1 & E2 & E3).
  assert (∀ a0 h0, a0 ≠ a → handles s !! a0 = Some h0 → handles s' !! a0 = Some h0)
    as Hkeep.
  { intros a0 h0 H0 Hl. by rewrite Eh, lookup_delete_ne. }
  split; [|split]; intros p Hp.
  - destruct (Om p (proj1 (Em p) Hp)) as (a0 & h0 & H0 & E).
    destruct (decide (a0 = a)) as [->|Hd]; [|exists a0, h0; auto].
    exists a', h'. split; [auto|]. congruence.
  - destruct (Oc p (proj1 (Ec p) Hp)) as (a0 & h0 & H0 & E).
    destruct (decide (a0 = a)) as [->|Hd]; [|exists a0, h0; auto].
    exists a', h'. split; [auto|]. congruence.
  - destruct (Of p (proj1 (Ef p) Hp)) as (a0 & h0 & H0 & E).
    destruct (decide (a0 = a)) as [->|Hd]; [|exists a0, h0; auto].
    exists a', h'. split; [auto|]. congruence.
Qed.

Lemma owned_detach_last s s' a h :
  owned s → handles s !! a = Some h →
  handles s' = delete a (handles s) →
  mtxs s' = delete (Mtx h) (mtxs s) →
  cnts s' = delete (Counter h) (cnts s) →
  flgs s' = delete (IsValid h) (flgs s) →
  owned s'.
Proof.
  intros (Om & Oc & Of) Ha Eh Em Ec Ef.
  split; [|split]; intros p.
  - rewrite Em, lookup_delete_is_Some. intros [Hp Hs].
    destruct (Om p Hs) as (a0 & h0 & H0 & E). exists a0, h0. split; [|done].
    rewrite Eh, lookup_delete_ne; [done|]. intros <-. congruence.
  - rewrite Ec, lookup_delete_is_Some. intros [Hp Hs].
    destruct (Oc p Hs) as (a0 & h0 & H0 & E). exists a0, h0. split; [|done].
    rewrite Eh, lookup_delete_ne; [done|]. intros <-. congruence.
  - rewrite Ef, lookup_delete_is_Some. intros [Hp Hs].
    destruct (Of p Hs) as (a0 & h0 & H0 & E). exists a0, h0. split; [|done].
    rewrite Eh, lookup_delete_ne; [done|]. intros <-. congruence.
Qed.

Lemma owned_same s s' :
  owned s → handles s' = handles s →
  same_dom (mtxs s') (mtxs s) → cnts s' = cnts s → flgs s' = flgs s →
  owned s'.
Proof.
  intros (Om & Oc & Of) Eh Em Ec Ef. unfold owned. rewrite Eh, Ec, Ef.
  split; [|done]. intros p Hp. apply Om. by apply Em.
Qed.

Lemma owned_release t a h v s :
  wf s → owned s → handles s !! a = Some h → cnts s !! Counter h = Some v →
  owned (set_handles (delete a) (release_state t h v s)).
Proof.
  intros Hwf Hown Ha Hv.
  destruct (wf_wrap_dec s a h v Hwf Ha Hv) as [Hw Hz].
  unfold release_state. case_decide as Hd.
  - by apply (owned_detach_last s _ a h).
  - assert (v ≠ 1%Z) by (intros ?; by apply Hd, Hz).
    apply (owned_detach s _ a h v); try done; red_state.
    apply same_dom_insert. eauto.
Qed.

Lemma link_owned t a other s r s' :
  owned s → handles s !! a = None → link t a other s = Ok (r, s') → owned s'.
Proof.
  intros Hown Ha H.
  destruct (link_inv _ _ _ _ _ H) as (o & m & m' & v & Ho & Hm & Hacq & Hv).
  rewrite (link_ok _ _ _ _ _ _ _ _ Ho Hm Hacq Hv) in H. injection H as _ <-.
  apply (owned_grow s _ a (copy_of o)); try done; red_state; auto.
  intros p. rewrite lookup_insert_is_Some. intros [<-|[_ Hp]]; auto.
Qed.

Lemma step_owned o s r s' :
  wf s → owned s → step o s = Ok (r, s') → owned s'.
Proof.
  intros Hwf Hown. destruct o as [a|t a other|t a other|t a|t a|t a|t a|a]; simpl.
  - destruct (handles s !! a) as [h|] eqn:Ha.
    { unfold_ops. by rewrite Ha. }
    rewrite ctor_default_ok by done. intros [= _ <-].
    eapply (owned_grow s _ a); try done; red_state; cbn [Mtx Counter IsValid];
      intros p; rewrite lookup_insert_is_Some; intros [<-|[_ Hp]]; auto.
  - destruct (handles s !! a) as [h|] eqn:Ha.
    { unfold_ops. by rewrite Ha. }
    rewrite ctor_copy_link by done. by apply link_owned.
  - intros H. destruct (decide (a = other)) as [->|Hne].
    { rewrite assign_self in H. by injection H as _ <-. }
    destruct (assign_inv _ _ _ _ _ H Hne) as (h & m & m' & v & Ha & Hm & Hacq & Hv).
    destruct (wf_linked s Hwf a h Ha) as (_ & _ & [b Hb] & _).
    rewrite (assign_split _ _ _ _ _ _ _ _ _ Hne Ha Hm Hacq Hv Hb) in H.
    pose proof (owned_release t a h v s Hwf Hown Ha Hv) as Hown1.
    destruct (link_inv _ _ _ _ _ H) as (o & mo & mo' & vo & Ho & Hmo & Hacqo & Hvo).
    rewrite (link_ok _ _ _ _ _ _ _ _ Ho Hmo Hacqo Hvo) in H. injection H as _ <-.
    apply (owned_grow (set_handles (delete a) (release_state t h v s)) _ a (copy_of o));
      try done; red_state; auto.
    + apply lookup_delete_eq.
    + by rewrite insert_delete_eq.
    + intros p. rewrite lookup_insert_is_Some. intros [<-|[_ Hp]]; auto.
  - intros H.
    destruct (dtor_inv _ _ _ _ H) as (h & m & m' & v & Ha & Hm & Hacq & Hv).
    destruct (wf_linked s Hwf a h Ha) as (_ & _ & [b Hb] & _).
    rewrite (dtor_ok _ _ _ _ _ _ _ _ Ha Hm Hacq Hv Hb) in H. injection H as _ <-.
    destruct (wf_wrap_dec s a h v Hwf Ha Hv) as [Hw Hz].
    case_decide as Hd.
    + by apply (owned_detach_last s _ a h).
    + assert (v ≠ 1%Z) by (intros ?; by apply Hd, Hz).
      apply (owned_detach s _ a h v); try done; red_state.
      * apply same_dom_insert. eauto.
      * destruct (IsOriginal h); [|done]. apply same_dom_insert. eauto.
  - unfold_ops.
    destruct (handles s !! a) as [h|]; [red_state|done].
    destruct (mtxs s !! Mtx h) as [m|] eqn:Hm; [red_state|done].
    destruct (acquire t m) as [m'|]; [red_state|done].
    intros [= _ <-]. apply (owned_same s); try done. red_state.
    apply same_dom_insert. eauto.
  - unfold_ops.
    destruct (handles s !! a) as [h|]; [red_state|done].
    destruct (mtxs s !! Mtx h) as [m|] eqn:Hm; [red_state|done].
    destruct (acquire t m) as [m'|]; red_state; intros [= _ <-];
      apply (owned_same s); try done; red_state.
    apply same_dom_insert. eauto.
  - unfold_ops.
    destruct (handles s !! a) as [h|]; [red_state|done].
    destruct (mtxs s !! Mtx h) as [m|] eqn:Hm; red_state.
    + destruct (release t m) as [m'|]; [red_state|done].
      intros [= _ <-]. apply (owned_same s); try done. red_state.
      apply same_dom_insert. eauto.
    + intros [= _ <-]. by apply (owned_same s).
  - unfold_ops.
    destruct (handles s !! a) as [h|]; [red_state|done].
    destruct (flgs s !! IsValid h) as [b|]; [red_state|done].
    by intros [= _ <-].
Qed.

Lemma owned_init : owned init.
Proof.
  split; [|split]; intros p [x Hx]; cbn in Hx; by rewrite lookup_empty in Hx.
Qed.

(** X7. Nothing is leaked.  Along every run from a well-formed state in
    which every mutex, counter and flag is pointed at by a live handle, the
    same holds at the end; so once the last handle has been destroyed or
    reassigned, the three stores are empty. *)
Theorem no_cell_is_leaked (ops : list op) (s : state) (r : unit) (s' : state) :
  wf s → owned s → room (length ops) s → run ops s = Ok (r, s') →
  owned s' ∧
  (handles s' = ∅ → mtxs s' = ∅ ∧ cnts s' = ∅ ∧ flgs s' = ∅).
Proof.
  revert s. induction ops as [|o rest IH]; intros s Hwf Hown Hroom; simpl.
  - intros [= _ <-]. split; [done|]. intros He.
    destruct Hown as (Om & Oc & Of).
    repeat split; apply map_empty; intros p; apply eq_None_not_Some; intros Hp.
    + destruct (Om p Hp) as (a & h & Ha & _). by rewrite He in Ha.
    + destruct (Oc p Hp) as (a & h & Ha & _). by rewrite He in Ha.
    + destruct (Of p Hp) as (a & h & Ha & _). by rewrite He in Ha.
  - unfold mbind, M_bind. destruct (step o s) as [[[] s1]| |] eqn:E; [|done..].
    apply IH.
    + by apply (step_wf o s tt s1 Hwf (room_weaken _ _ Hroom)).
    + by apply (step_owned o s tt s1).
    + by apply (step_room o s tt s1).
Qed.

Lemma no_cell_is_leaked_witness :
  let ops := [ONew 1; OCopy 0 2 1; ONew 3; OAssign 0 3 2; ODestroy 0 1;
              ODestroy 0 3; ODestroy 0 2] in
  owned (state_after ops) ∧
  (handles (state_after ops) = ∅ →
   mtxs (state_after ops) = ∅ ∧ cnts (state_after ops) = ∅ ∧
   flgs (state_after ops) = ∅).
Proof.
  apply (no_cell_is_leaked
           [ONew 1; OCopy 0 2 1; ONew 3; OAssign 0 3 2; ODestroy 0 1;
            ODestroy 0 3; ODestroy 0 2] init tt).
  - exact wf_init.
  - exact owned_init.
  - by vm_compute.
  - by vm_compute.
Defined.

(** ** Bookkeeping gives its locks back *)

(** X10. Construction, assignment, destruction and [GetIsValid] leave no
    lock behind: after any of them every mutex that still exists is in the
    state it was in before (free, or held by the same thread the same
    number of times), and the only new mutex is the free one a default
    constructor has just made.  Only [Lock], [TryLock] and [Unlock] change
    who holds a mutex. *)
Theorem bookkeeping_returns_locks (o : op) (s : state) (r : unit) (s' : state)
    (p : loc) (m : recursive_mutex) :
  wf s → step o s = Ok (r, s') →
  (∀ t a, o ≠ OLock t a ∧ o ≠ OTryLock t a ∧ o ≠ OUnlock t a) →
  mtxs s' !! p = Some m →
  mtxs s !! p = Some m ∨
  (∃ a, o = ONew a ∧ m = Free ∧ mtxs s !! p = None).
Proof.
  intros Hwf H Hkind.
  destruct o as [a|t a other|t a other|t a|t a|t a|t a|a]; simpl in H.
  - destruct (handles s !! a) as [h|] eqn:Ha.
    { revert H. unfold_ops. by rewrite Ha. }
    rewrite ctor_default_ok in H by done. injection H as _ <-. red_state.
    rewrite lookup_insert_Some. intros [[<- <-]|[_ Hl]]; [|by left].
    right. exists a. repeat split.
    apply eq_None_not_Some. intros Hs.
    apply (wf_below_mtx s Hwf) in Hs. lia.
  - destruct (handles s !! a) as [h|] eqn:Ha.
    { revert H. unfold_ops. by rewrite Ha. }
    rewrite ctor_copy_link in H by done.
    destruct (link_inv _ _ _ _ _ H) as (ho & mo & mo' & v & Ho & Hm & Hacq & Hv).
    rewrite (link_ok _ _ _ _ _ _ _ _ Ho Hm Hacq Hv) in H. injection H as _ <-.
    red_state. by left.
  - destruct (decide (a = other)) as [->|Hne].
    { rewrite assign_self in H. injection H as _ <-. by left. }
    destruct (assign_inv _ _ _ _ _ H Hne) as (h & m0 & m' & v & Ha & Hm & Hacq & Hv).
    destruct (wf_linked s Hwf a h Ha) as (_ & _ & [b Hb] & _).
    rewrite (assign_split _ _ _ _ _ _ _ _ _ Hne Ha Hm Hacq Hv Hb) in H.
    destruct (link_inv _ _ _ _ _ H) as (ho & mo & mo' & vo & Ho & Hmo & Hacqo & Hvo).
    rewrite (link_ok _ _ _ _ _ _ _ _ Ho Hmo Hacqo Hvo) in H. injection H as _ <-.
    red_state. unfold release_state. case_decide; red_state; [|by left].
    rewrite lookup_delete_Some. intros [_ Hl]. by left.
  - destruct (dtor_inv _ _ _ _ H) as (h & m0 & m' & v & Ha & Hm & Hacq & Hv).
    destruct (wf_linked s Hwf a h Ha) as (_ & _ & [b Hb] & _).
    rewrite (dtor_ok _ _ _ _ _ _ _ _ Ha Hm Hacq Hv Hb) in H. injection H as _ <-.
    case_decide; red_state; [|by left].
    rewrite lookup_delete_Some. intros [_ Hl]. by left.
  - by destruct (Hkind t a) as (? & _).
  - by destruct (Hkind t a) as (_ & ? & _).
  - by destruct (Hkind t a) as (_ & _ & ?).
  - revert H. unfold_ops.
    destruct (handles s !! a) as [h|]; [red_state|done].
    destruct (flgs s !! IsValid h) as [b|]; [red_state|done].
    intros [= _ <-]. by left.
Qed.

Lemma bookkeeping_returns_locks_witness :
  mtxs held_elsewhere !! 1%positive = Some (Held 1 1) ∨
  (∃ a, OCopy 1 2 1 = ONew a ∧ Held 1 1 = Free ∧
        mtxs held_elsewhere !! 1%positive = None).
Proof.
  apply (bookkeeping_returns_locks (OCopy 1 2 1) held_elsewhere tt
           (state_after [ONew 1; OLock 1 1; OCopy 1 2 1]));
    [apply wf_decide; by vm_compute|by vm_compute| |by vm_compute].
  intros t a. repeat split; discriminate.
Defined.

(** ** The validity flag goes one way *)

(** X11. The shared validity flag goes one way.  Along every run from a
    well-formed state a flag cell goes from [true] to [false] at most once
    and never from [false] to [true]; the only operation that takes it from
    [true] to [false] is the destructor of the handle that is the original
    of that block (an assignment never does); the destructor of a copy
    leaves the value of every flag as it was; and when the original is
    destroyed while a copy is alive, the flag goes from [true] to [false]
    at once and the copy can still lock, read [false], and unlock. *)
Theorem validity_flag_one_way (s : state) (Hwf : wf s) :
  (∀ ops f, room (length ops) s →
     changes true false (flag_history f ops s) ≤ 1 ∧
     changes false true (flag_history f ops s) = 0) ∧
  (∀ o r s' f, room 1 s → step o s = Ok (r, s') →
     flgs s !! f = Some true → flgs s' !! f = Some false →
     ∃ t a h, o = ODestroy t a ∧ handles s !! a = Some h ∧
              IsOriginal h = true ∧ IsValid h = f) ∧
  (∀ t a h r s', handles s !! a = Some h → IsOriginal h = false →
     dtor t a s = Ok (r, s') →
     ∀ f b, flgs s' !! f = Some b → flgs s !! f = Some b) ∧
  (∀ t a h c hc m m',
     handles s !! a = Some h → IsOriginal h = true →
     handles s !! c = Some hc → c ≠ a → Counter hc = Counter h →
     mtxs s !! Mtx h = Some m → acquire t m = Some m' →
     ∃ s1 s2 s3,
       flgs s !! IsValid h = Some true ∧
       dtor t a s = Ok (tt, s1) ∧ flgs s1 !! IsValid h = Some false ∧
       handles s1 !! c = Some hc ∧
       Lock t c s1 = Ok (tt, s2) ∧
       GetIsValid c s2 = Ok (false, s2) ∧
       Unlock t c s2 = Ok (tt, s3)).
Proof.
  split; [|split; [|split]].
  - intros ops f Hroom. destruct (history_changes f ops s Hwf Hroom) as [H1 H2].
    split; [|done]. case_decide; lia.
  - intros o r s' f Hroom H Hb Hb'.
    destruct (step_effect o s r s' f Hwf Hroom H) as (_ & _ & Hf).
    rewrite Hb, Hb' in Hf. simpl in Hf. destruct Hf as [|(_ & _ & Hf)]; done.
  - intros t a h r s' Ha Hor H f b.
    destruct (dtor_inv _ _ _ _ H) as (h' & m & m' & v & Ha' & Hm & Hacq & Hv).
    assert (h' = h) as -> by congruence.
    destruct (wf_linked s Hwf a h Ha) as (_ & _ & [b0 Hb0] & _).
    rewrite (dtor_ok _ _ _ _ _ _ _ _ Ha Hm Hacq Hv Hb0) in H. injection H as _ <-.
    case_decide; red_state.
    + rewrite lookup_delete_Some. tauto.
    + by rewrite Hor.
  - intros t a h c hc m m' Ha Hor Hc Hne Hcnt Hm Hacq.
    destruct (wf_linked s Hwf a h Ha) as (_ & [v Hv] & _ & Hb).
    specialize (Hb Hor).
    destruct (wf_in_sync s Hwf c hc a h Hc Ha) as [Hsm Hsf].
    assert (Mtx hc = Mtx h) as Em by (by apply Hsm).
    assert (IsValid hc = IsValid h) as Ef by (by apply Hsf).
    pose proof (shared_block_count s a h c hc v Hwf Ha Hc Hne Hcnt Hv) as Hv2.
    destruct (wf_wrap_dec s a h v Hwf Ha Hv) as [Hw Hz].
    pose proof (release_acquire _ _ _ Hacq) as Hrel.
    rewrite (dtor_ok _ _ _ _ _ _ _ _ Ha Hm Hacq Hv Hb).
    rewrite decide_False by lia. rewrite Hor.
    eexists _, _, _. split; [done|]. split; [reflexivity|]. red_state.
    split; [by rewrite lookup_insert_eq|].
    split; [by rewrite lookup_delete_ne|].
    split; [|split].
    + eapply Lock_ok; red_state; [by rewrite lookup_delete_ne|by rewrite Em|done].
    + eapply GetIsValid_ok; red_state; [by rewrite lookup_delete_ne|].
      by rewrite Ef, lookup_insert_eq.
    + eapply Unlock_ok; red_state.
      * by rewrite lookup_delete_ne.
      * by rewrite lookup_insert_eq.
      * done.
Qed.

Lemma validity_flag_one_way_witness :
  (changes true false
     (flag_history 3 [ODestroy 0 2; OCopy 0 4 1; ODestroy 0 1; ODestroy 0 4] two_handles) ≤ 1 ∧
   changes false true
     (flag_history 3 [ODestroy 0 2; OCopy 0 4 1; ODestroy 0 1; ODestroy 0 4] two_handles) = 0) ∧
  (∃ s1 s2 s3,
     flgs two_handles !! 3%positive = Some true ∧
     dtor 0 1 two_handles = Ok (tt, s1) ∧ flgs s1 !! 3%positive = Some false ∧
     handles s1 !! 2%positive = Some (mkMV 1 2 3 false) ∧
     Lock 0 2 s1 = Ok (tt, s2) ∧
     GetIsValid 2 s2 = Ok (false, s2) ∧
     Unlock 0 2 s2 = Ok (tt, s3)).
Proof.
  assert (wf two_handles) as Hwf by (apply wf_decide; vm_compute; reflexivity).
  destruct (validity_flag_one_way two_handles Hwf) as (H1 & _ & _ & H4).
  split.
  - apply H1. vm_compute. reflexivity.
  - apply (H4 0 1%positive (mkMV 1 2 3 true) 2%positive (mkMV 1 2 3 false)
             Free (Held 0 1)); try (vm_compute; reflexivity). discriminate.
Defined.
